(** * Conjunction detection engine (src/services/conjunctionDetector.js)

    A shallow embedding of the detection/simulation engine and of the part of
    src/services/satelliteService.js it calls ([propagateSatellite]), followed
    by the makers of the catalog in satelliteService.js ([parseTLEData],
    [generateSyntheticDebris], [generateDemoSatellites]) and by what
    components/ConjunctionPanel.js shows of a conjunction ([formatCountdown],
    the miss distance).

    Numbers.  A JavaScript number is modelled as a rational extended with the
    three special values the control flow of the code depends on ([NaN] and
    the two infinities).  The operations [+ - * /] are exact on finite values
    (rounding, overflow and signed zeros are not modelled) and follow IEEE-754
    on the special values.  [Math.sqrt], [Math.cos], [Math.sin] and [Math.pow]
    produce irrational values in general: they are the platform's
    approximations and are parameters of the development.

    Missing properties ([undefined]) are [None].  A property access on
    [undefined]/[null] throws a [TypeError]; functions that can reach such an
    access return in the [result] monad. *)

From Stdlib Require Import QArith Qround Qabs Qreduction ZArith List Bool String Lia Lqa.
From Stdlib Require Import Sorting.Sorted Sorting.Permutation.
From Stdlib Require Import Ascii DecimalString.
From Stdlib Require Qcanon.
Import ListNotations.

Set Implicit Arguments.

(** ** Numbers *)

Inductive number : Type :=
| NaN
| PInf
| NInf
| Fin (q : Q).

Declare Scope num_scope.
Delimit Scope num_scope with num.
Bind Scope num_scope with number.

Module Num.

Definition Qlt_bool (a b : Q) : bool := negb (Qle_bool b a).

Definition of_Z (z : Z) : number := Fin (inject_Z z).
Definition of_nat (n : nat) : number := of_Z (Z.of_nat n).

Definition inf_of (negative : bool) : number :=
  if negative then NInf else PInf.

Definition is_neg (x : number) : bool :=
  match x with
  | NInf => true
  | Fin q => Qlt_bool q 0
  | _ => false
  end.

Definition is_zero (x : number) : bool :=
  match x with
  | Fin q => Qeq_bool q 0
  | _ => false
  end.

Definition add (x y : number) : number :=
  match x, y with
  | NaN, _ | _, NaN => NaN
  | Fin a, Fin b => Fin (a + b)
  | PInf, NInf | NInf, PInf => NaN
  | PInf, _ | _, PInf => PInf
  | NInf, _ | _, NInf => NInf
  end.

Definition sub (x y : number) : number :=
  match x, y with
  | NaN, _ | _, NaN => NaN
  | Fin a, Fin b => Fin (a - b)
  | PInf, PInf | NInf, NInf => NaN
  | PInf, _ | _, NInf => PInf
  | NInf, _ | _, PInf => NInf
  end.

Definition mul (x y : number) : number :=
  match x, y with
  | NaN, _ | _, NaN => NaN
  | Fin a, Fin b => Fin (a * b)
  | _, _ =>
      if is_zero x || is_zero y then NaN
      else inf_of (xorb (is_neg x) (is_neg y))
  end.

Definition div (x y : number) : number :=
  match x, y with
  | NaN, _ | _, NaN => NaN
  | Fin a, Fin b =>
      if Qeq_bool b 0
      then (if Qeq_bool a 0 then NaN else inf_of (Qlt_bool a 0))
      else Fin (a / b)
  | Fin _, _ => Fin 0
  | _, Fin _ => inf_of (xorb (is_neg x) (is_neg y))
  | _, _ => NaN
  end.

(** [x < y]; every comparison with [NaN] is false. *)
Definition ltb (x y : number) : bool :=
  match x, y with
  | NaN, _ | _, NaN => false
  | Fin a, Fin b => Qlt_bool a b
  | NInf, NInf | PInf, _ | _, NInf => false
  | NInf, _ | _, PInf => true
  end.

Definition gtb (x y : number) : bool := ltb y x.

Definition leb (x y : number) : bool :=
  match x, y with
  | NaN, _ | _, NaN => false
  | Fin a, Fin b => Qle_bool a b
  | NInf, _ | _, PInf => true
  | PInf, _ | _, NInf => false
  end.

(** [x === Infinity] *)
Definition is_Infinity (x : number) : bool :=
  match x with
  | PInf => true
  | _ => false
  end.

(** ToBoolean on a number: [0] and [NaN] are falsy. *)
Definition truthy (x : number) : bool :=
  match x with
  | NaN => false
  | Fin q => negb (Qeq_bool q 0)
  | _ => true
  end.

Definition Math_abs (x : number) : number :=
  match x with
  | NaN => NaN
  | PInf | NInf => PInf
  | Fin q => Fin (Qabs q)
  end.

Definition Math_floor (x : number) : number :=
  match x with
  | Fin q => of_Z (Qfloor q)
  | _ => x
  end.

(** The double nearest to pi, [0x1.921fb54442d18p+1]. *)
Definition Math_PI : number := Fin (884279719003555 # 281474976710656).

End Num.

Notation "x + y" := (Num.add x y) : num_scope.
Notation "x - y" := (Num.sub x y) : num_scope.
Notation "x * y" := (Num.mul x y) : num_scope.
Notation "x / y" := (Num.div x y) : num_scope.
Notation "x <? y" := (Num.ltb x y) : num_scope.
Notation "x >? y" := (Num.gtb x y) : num_scope.
Notation "x <=? y" := (Num.leb x y) : num_scope.

(** ToNumber on a property that may be missing or [null]:
    [undefined] converts to [NaN], [null] to [0]. *)
Definition ToNumber_undefined (v : option number) : number :=
  match v with
  | Some n => n
  | None => NaN
  end.

Definition ToNumber_null (v : option number) : number :=
  match v with
  | Some n => n
  | None => Fin 0
  end.

(** ToBoolean on a numeric property that may be missing. *)
Definition truthy_prop (v : option number) : bool :=
  match v with
  | Some n => Num.truthy n
  | None => false
  end.

Definition defined {A : Type} (v : option A) : bool :=
  match v with
  | Some _ => true
  | None => false
  end.

(** ** Exceptions *)

Inductive result (A : Type) : Type :=
| Ok (a : A)
| TypeError.

Arguments Ok {A} a.
Arguments TypeError {A}.

Definition bind {A B : Type} (m : result A) (k : A -> result B) : result B :=
  match m with
  | Ok a => k a
  | TypeError => TypeError
  end.

Notation "x <- m ;; k" := (bind m (fun x => k))
  (at level 61, m at next level, right associativity).

(** ** Constants *)

Definition EARTH_RADIUS_KM : number := Fin 6371.
Definition HIGH_RISK_THRESHOLD_KM : number := Fin 1.
Definition PREDICTION_HORIZON_MINUTES : number := Fin 30.
Definition TIME_STEPS : nat := 30.

(** ** Risk classification *)

Inductive RiskLevel : Type := CRITICAL | HIGH | ELEVATED | MODERATE.

Definition getRiskLevel (missDistance relativeVelocity : number) : RiskLevel :=
  if (missDistance <? Fin (1 # 10))%num then CRITICAL
  else if (missDistance <? Fin (5 # 10))%num then HIGH
  else if (missDistance <? Fin 1)%num then ELEVATED
  else MODERATE.

(** Urgency rank of a tier, higher is more urgent. *)
Definition urgency (r : RiskLevel) : nat :=
  match r with
  | CRITICAL => 3
  | HIGH => 2
  | ELEVATED => 1
  | MODERATE => 0
  end.

(** ** Data model *)

Record Vec3 : Type := { x : number; y : number; z : number }.

(** What [satellite.propagate] (satellite.js, external) returns: on failure
    both members are [false]. *)
Record PositionAndVelocity : Type :=
  { pv_position : option Vec3; pv_velocity : option Vec3 }.

(** The SGP4 record of satellite.js is opaque to this code; it is represented
    by the trajectory [satellite.propagate(satrec, date)] computes from it, as
    a function of the date in milliseconds. *)
Definition Satrec : Type := number -> PositionAndVelocity.

(** A tracked object.  Every property may be missing. *)
Record Satellite : Type :=
  { name : string;
    satrec : option Satrec;
    sat_timestamp : option number;
    altitude : option number;
    latitude : option number;
    longitude : option number;
    sat_position : option Vec3 }.

(** A resolved state: the object returned by [propagateSatellite] and
    [propagateSimple]. *)
Record State : Type :=
  { position : Vec3; velocity : option Vec3; timestamp : number }.

Record Positions : Type := { pos_sat1 : Vec3; pos_sat2 : Vec3 }.

(** The object returned by [findClosestApproach]. *)
Record ClosestApproach : Type :=
  { missDistance : number;
    timeToClosestApproach : option number;
    relativeVelocity : number;
    positions : option Positions;
    ca_timestamp : number }.

(** The template string [`${sat1.name}-${sat2.name}-${now}`], kept as its
    three parts. *)
Record ConjunctionId : Type :=
  { id_sat1 : string; id_sat2 : string; id_now : number }.

(** [{sat1, sat2, ...closestApproach, riskLevel, id}]: the spread copies the
    five properties of the closest approach. *)
Record Conjunction : Type :=
  { sat1 : Satellite;
    sat2 : Satellite;
    closest : ClosestApproach;
    riskLevel : RiskLevel;
    id : ConjunctionId }.

Record Fragment : Type :=
  { frag_position : option Vec3;
    frag_velocity : Vec3;
    size : number;
    satellite1Name : string;
    satellite2Name : string;
    createdAt : number }.

Record ImpactRecord : Type :=
  { satellite : Satellite;
    impact_riskLevel : RiskLevel;
    reason : string }.

(** An object of the catalog: beside the properties the engine reads it
    carries descriptive ones the engine does not read. *)
Record CatalogObject : Type :=
  { object : Satellite;
    obj_velocity : option Vec3;
    tleLine1 : option string;
    tleLine2 : option string;
    type : option string;
    color : option string;
    service : option string }.

(** What [satellite.eciToGeodetic] (satellite.js, external) returns. *)
Record Geodetic : Type :=
  { height : number; gd_latitude : number; gd_longitude : number }.

(** [Math.random]: a stream of draws and the number of draws consumed. *)
Record RandomSource : Type := { draws : nat -> Q; drawn : nat }.

Definition Math_random (r : RandomSource) : number * RandomSource :=
  (Fin (draws r (drawn r)), {| draws := draws r; drawn := S (drawn r) |}).

(** ** Loops *)

(** [for (const k of ks) s = body(s, k)], leaving at the first exception. *)
Fixpoint for_each {S : Type} (ks : list nat) (body : S -> nat -> result S) (s : S)
  : result S :=
  match ks with
  | [] => Ok s
  | k :: rest => s' <- body s k ;; for_each rest body s'
  end.

(** ** Array.prototype.sort

    ECMAScript requires the sort to be stable; for a comparator that is a
    consistent ordering the result is then determined, and is the one of a
    stable insertion sort.  [b] is placed before [a] exactly when
    [comparefn(a, b) > 0]. *)
Section ArraySort.
Context {A : Type} (comparefn : A -> A -> number).

Fixpoint sort_insert (a : A) (l : list A) : list A :=
  match l with
  | [] => [a]
  | b :: rest =>
      if (comparefn a b >? Fin 0)%num then b :: sort_insert a rest
      else a :: b :: rest
  end.

Definition Array_sort (l : list A) : list A := fold_right sort_insert [] l.
End ArraySort.

(** ** Sample objects

    The objects of the examples that close the file.  They are tracked by SGP4
    records, so [Math.cos], [Math.sin] and [Math.pow], which only the fallback
    propagation of [propagateSimple] calls, are never reached; the examples
    give them as [NaN].  The objects adrift at the end have no record: their
    examples run the fallback on [cos_series], [sin_series] and [cube]. *)

Module Example.

(** A square root that is exact on the squares of rationals (and within
    [1 / den] below the root elsewhere). *)
Definition sqrt_approx (q : Q) : Q :=
  Qred (Z.sqrt (Qnum q * Zpos (Qden q)) # Qden q).

Definition not_called1 (v : number) : number := NaN.
Definition not_called2 (v w : number) : number := NaN.

Definition now : number := Fin 0.

(** The trajectory of an object in uniform motion: at the date [t] (in
    milliseconds) it is at [p + v * t / 1000] km, with velocity [v] km/s. *)
Definition uniform (p v : Q * Q * Q) : Satrec :=
  fun t =>
    match t with
    | Fin ms =>
        let '(px, py, pz) := p in
        let '(vx, vy, vz) := v in
        {| pv_position := Some {| x := Fin (Qred (px + vx * ms / 1000));
                                  y := Fin (Qred (py + vy * ms / 1000));
                                  z := Fin (Qred (pz + vz * ms / 1000)) |};
           pv_velocity := Some {| x := Fin vx; y := Fin vy; z := Fin vz |} |}
    | _ => {| pv_position := None; pv_velocity := None |}
    end.

Definition tracked (n : string) (alt : option number) (rec : Satrec) : Satellite :=
  {| name := n;
     satrec := Some rec;
     sat_timestamp := Some (Fin 0);
     altitude := alt;
     latitude := None;
     longitude := None;
     sat_position := pv_position (rec (Fin 0)) |}.

(** Two objects at 550 and 551 km that meet head-on, 8 km/s apart in
    velocity, and pass 0.05 km from each other at minute 12. *)
Definition east : Satellite :=
  tracked "EAST" (Some (Fin 550)) (uniform (-2880, 0, 0) (4, 0, 0)).
Definition west : Satellite :=
  tracked "WEST" (Some (Fin 551)) (uniform (2880, 5 # 100, 0) (-4, 0, 0)).

(** Three objects flying in formation, 0.6, 0.2 and 0.4 km apart. *)
Definition lead : Satellite :=
  tracked "LEAD" (Some (Fin 550)) (uniform (0, 0, 0) (76 # 10, 0, 0)).
Definition wing : Satellite :=
  tracked "WING" (Some (Fin 550)) (uniform (6 # 10, 0, 0) (76 # 10, 0, 0)).
Definition tail : Satellite :=
  tracked "TAIL" (Some (Fin 550)) (uniform (2 # 10, 0, 0) (76 # 10, 0, 0)).

(** An object 150 km above the formation, on the track of [lead]. *)
Definition high : Satellite :=
  tracked "HIGH" (Some (Fin 700)) (uniform (0, 0, 0) (76 # 10, 0, 0)).

(** An object with an SGP4 record and no altitude, 0.5 km from [lead]. *)
Definition bare : Satellite :=
  tracked "BARE" None (uniform (5 # 10, 0, 0) (76 # 10, 0, 0)).

(** An object with no SGP4 record and no altitude. *)
Definition blank : Satellite :=
  {| name := "BLANK"; satrec := None; sat_timestamp := None; altitude := None;
     latitude := Some (Fin 10); longitude := Some (Fin 20); sat_position := None |}.

(** An object 200 km from [lead]. *)
Definition far : Satellite :=
  tracked "FAR" (Some (Fin 550)) (uniform (200, 0, 0) (76 # 10, 0, 0)).

(** The names, miss distance and time offset of a conjunction. *)
Definition summary (c : Conjunction) : string * string * number * option number :=
  (name (sat1 c), name (sat2 c), missDistance (closest c),
   timeToClosestApproach (closest c)).

Definition summaries (r : result (list Conjunction))
  : option (list (string * string * number * option number)) :=
  match r with
  | Ok l => Some (map summary l)
  | TypeError => None
  end.

(** A conjunction with a relative velocity of 10 km/s. *)
Definition fast : Conjunction :=
  {| sat1 := east;
     sat2 := west;
     closest :=
       {| missDistance := Fin (5 # 100);
          timeToClosestApproach := Some (Fin 12);
          relativeVelocity := Fin 10;
          positions :=
            Some {| pos_sat1 := {| x := Fin 0; y := Fin 0; z := Fin 0 |};
                    pos_sat2 := {| x := Fin 0; y := Fin (5 # 100); z := Fin 0 |} |};
          ca_timestamp := Fin 720000 |};
     riskLevel := CRITICAL;
     id := {| id_sat1 := "EAST"; id_sat2 := "WEST"; id_now := now |} |}.

(** A random source that cycles through 0, 0.1, ..., 0.9. *)
Definition cycle : RandomSource :=
  {| draws := fun n => Z.of_nat (n mod 10) # 10; drawn := 0 |}.

(** A fragment at the origin, where [lead] is. *)
Definition shard : Fragment :=
  {| frag_position := Some {| x := Fin 0; y := Fin 0; z := Fin 0 |};
     frag_velocity := {| x := Fin 1; y := Fin 0; z := Fin 0 |};
     size := Fin (1 # 4);
     satellite1Name := "EAST";
     satellite2Name := "WEST";
     createdAt := now |}.

(** An object with an SGP4 record and no timestamp, next to [lead]. *)
Definition stale : Satellite :=
  {| name := "STALE";
     satrec := Some (uniform (3 # 10, 0, 0) (76 # 10, 0, 0));
     sat_timestamp := None;
     altitude := Some (Fin 550);
     latitude := None;
     longitude := None;
     sat_position := None |}.

(** An object with an altitude and a longitude, and no latitude. *)
Definition lost : Satellite :=
  {| name := "LOST"; satrec := None; sat_timestamp := None; altitude := Some (Fin 550);
     latitude := None; longitude := Some (Fin 20); sat_position := None |}.

(** A platform for the fallback propagation: the first terms of the series
    of the cosine and the sine, and the cube for the power (the code raises
    to the power 3 only). *)
Definition cos_series (v : number) : number :=
  match v with
  | Fin q => Fin (Qred (1 - q * q / 2))
  | _ => NaN
  end.

Definition sin_series (v : number) : number :=
  match v with
  | Fin q => Fin (Qred q)
  | _ => NaN
  end.

Definition cube (v w : number) : number := (v * v * v)%num.

(** Two objects without SGP4 record on the equator at 550 km, one degree of
    longitude apart. *)
Definition adrift (n : string) (lon : Q) : Satellite :=
  {| name := n; satrec := None; sat_timestamp := None; altitude := Some (Fin 550);
     latitude := Some (Fin 0); longitude := Some (Fin lon); sat_position := None |}.

Definition flotsam : Satellite := adrift "FLOTSAM" 0.
Definition jetsam : Satellite := adrift "JETSAM" 1.

(** The conjunction [fast] with another relative velocity and other
    positions. *)
Definition approach (v : number) (ps : option Positions) : Conjunction :=
  {| sat1 := east;
     sat2 := west;
     closest :=
       {| missDistance := Fin (5 # 100);
          timeToClosestApproach := Some (Fin 12);
          relativeVelocity := v;
          positions := ps;
          ca_timestamp := Fin 720000 |};
     riskLevel := CRITICAL;
     id := {| id_sat1 := "EAST"; id_sat2 := "WEST"; id_now := now |} |}.

Definition origin : Vec3 := {| x := Fin 0; y := Fin 0; z := Fin 0 |}.

(** A TLE reader for the text [catalog_text]: the record of [east] for the
    lines of EAST, a record at rest at the origin for those of STILL, and an
    exception for any other line. *)
Definition twoline2satrec_sample (line1 line2 : string) : option Satrec :=
  if String.eqb line1 "1 EAST" then Some (uniform (-2880, 0, 0) (4, 0, 0))
  else if String.eqb line1 "1 STILL" then Some (uniform (0, 0, 0) (0, 0, 0))
  else None.

Definition gstime_sample (date : number) : number := Fin 0.

Definition eciToGeodetic_sample (p : Vec3) (gmst : number) : Geodetic :=
  {| height := Fin 550; gd_latitude := Fin 0; gd_longitude := Fin 0 |}.

(** The lines of [catalog_text] have no white space at their ends. *)
Definition trim_sample (s : string) : string := s.

Definition toString_sample (q : Q) : string := "?".
Definition toFixed_sample (v : number) (digits : nat) : string := "?".

Definition newline : string := String "010" EmptyString.

Definition catalog_text : string :=
  ("EAST" ++ newline ++ "1 EAST" ++ newline ++ "2 EAST" ++ newline ++
   "STILL" ++ newline ++ "1 STILL" ++ newline ++ "2 STILL" ++ newline ++
   "JUNK" ++ newline ++ "1 JUNK" ++ newline ++ "2 JUNK" ++ newline ++
   "LEFT OVER")%string.

(** Three objects flying in formation at 8 km/s, 0.75, 0.25 and 0.5 km
    apart.  The offsets and the speed are binary fractions: every position,
    distance and time of their examples is computed without rounding. *)
Definition van : Satellite :=
  tracked "VAN" (Some (Fin 550)) (uniform (0, 0, 0) (8, 0, 0)).
Definition flank : Satellite :=
  tracked "FLANK" (Some (Fin 550)) (uniform (3 # 4, 0, 0) (8, 0, 0)).
Definition rear : Satellite :=
  tracked "REAR" (Some (Fin 550)) (uniform (1 # 4, 0, 0) (8, 0, 0)).

End Example.

(** ** The engine *)

Section Engine.
(** Platform functions. *)
Variable sqrt_approx : Q -> Q.
Variables Math_cos Math_sin : number -> number.
Variable Math_pow : number -> number -> number.
(** The clock, read as [Date.now()] or [new Date()]; one reading serves a
    whole call. *)
Variable Date_now : number.

(** [Math.sqrt]: exact at zero, [NaN] below it, the platform's
    approximation above. *)
Definition Math_sqrt (v : number) : number :=
  match v with
  | NaN | NInf => NaN
  | PInf => PInf
  | Fin q =>
      if Qeq_bool q 0 then Fin 0
      else if Qle_bool 0 q then Fin (sqrt_approx (Qred q))
      else NaN
  end.

Definition calculateDistance3D (pos1 pos2 : Vec3) : number :=
  let dx := (x pos1 - x pos2)%num in
  let dy := (y pos1 - y pos2)%num in
  let dz := (z pos1 - z pos2)%num in
  Math_sqrt (dx * dx + dy * dy + dz * dz)%num.

Definition calculateRelativeVelocity (vel1 vel2 : Vec3) : number :=
  let dvx := (x vel1 - x vel2)%num in
  let dvy := (y vel1 - y vel2)%num in
  let dvz := (z vel1 - z vel2)%num in
  Math_sqrt (dvx * dvx + dvy * dvy + dvz * dvz)%num.

(** satelliteService.js *)
Definition propagateSatellite (sat : Satellite) (minutesAhead : number)
  : result (option State) :=
  match satrec sat with
  | None => Ok None
  | Some rec =>
      match sat_timestamp sat with
      | None => TypeError (* sat.timestamp.getTime() *)
      | Some t0 =>
          let futureTime := (t0 + minutesAhead * Fin 60000)%num in
          let positionAndVelocity := rec futureTime in
          match pv_position positionAndVelocity with
          | Some p =>
              Ok (Some {| position := p;
                          velocity := pv_velocity positionAndVelocity;
                          timestamp := futureTime |})
          | None => Ok None
          end
      end
  end.

Definition propagateSimple (sat : Satellite) (minutesAhead : number) : State :=
  let GM := Fin (3986004418 # 10000) in
  let orbitalRadius := (EARTH_RADIUS_KM + ToNumber_undefined (altitude sat))%num in
  let period :=
    (Fin 2 * Num.Math_PI * Math_sqrt (Math_pow orbitalRadius (Fin 3) / GM) / Fin 60)%num in
  let angularVelocity := (Fin 360 / period)%num in
  let displacement := (angularVelocity * minutesAhead)%num in
  let newLon := (ToNumber_undefined (longitude sat) + displacement)%num in
  let lat := (ToNumber_undefined (latitude sat) * Num.Math_PI / Fin 180)%num in
  let lon := (newLon * Num.Math_PI / Fin 180)%num in
  let position :=
    {| x := (orbitalRadius * Math_cos lat * Math_cos lon)%num;
       y := (orbitalRadius * Math_cos lat * Math_sin lon)%num;
       z := (orbitalRadius * Math_sin lat)%num |} in
  let velocity := Math_sqrt (GM / orbitalRadius)%num in
  {| position := position;
     velocity := Some {| x := Fin 0; y := velocity; z := Fin 0 |};
     timestamp := (Date_now + minutesAhead * Fin 60000)%num |}.

Definition propagateSatellitePosition (sat : Satellite) (minutesAhead : number)
  : result (option State) :=
  if defined (satrec sat) then propagateSatellite sat minutesAhead
  else if truthy_prop (altitude sat) && defined (latitude sat) && defined (longitude sat)
  then Ok (Some (propagateSimple sat minutesAhead))
  else Ok None.

(** The four variables of the search loop. *)
Record Search : Type :=
  { minDistance : number;
    closestTime : option number;
    closestRelVel : number;
    closestPositions : option Positions }.

Definition search_start : Search :=
  {| minDistance := PInf;
     closestTime := None;
     closestRelVel := Fin 0;
     closestPositions := None |}.

Definition minutesAhead_of (step : nat) : number :=
  (Num.of_nat step / Num.of_nat TIME_STEPS * PREDICTION_HORIZON_MINUTES)%num.

Definition search_body (sat1 sat2 : Satellite) (s : Search) (step : nat)
  : result Search :=
  let minutesAhead := minutesAhead_of step in
  pos1 <- propagateSatellitePosition sat1 minutesAhead ;;
  pos2 <- propagateSatellitePosition sat2 minutesAhead ;;
  match pos1, pos2 with
  | Some pos1, Some pos2 =>
      let distance := calculateDistance3D (position pos1) (position pos2) in
      if (distance <? minDistance s)%num then
        Ok {| minDistance := distance;
              closestTime := Some minutesAhead;
              closestRelVel :=
                match velocity pos1, velocity pos2 with
                | Some v1, Some v2 => calculateRelativeVelocity v1 v2
                | _, _ => closestRelVel s
                end;
              closestPositions :=
                Some {| pos_sat1 := position pos1; pos_sat2 := position pos2 |} |}
      else Ok s
  | _, _ => Ok s
  end.

Definition findClosestApproach (sat1 sat2 : Satellite)
  : result (option ClosestApproach) :=
  s <- for_each (seq 0 (S TIME_STEPS)) (search_body sat1 sat2) search_start ;;
  if Num.is_Infinity (minDistance s) then Ok None
  else
    Ok (Some {| missDistance := minDistance s;
                timeToClosestApproach := closestTime s;
                relativeVelocity := closestRelVel s;
                positions := closestPositions s;
                ca_timestamp :=
                  (Date_now + ToNumber_null (closestTime s) * Fin 60000)%num |}).

Definition trackable (sat : Satellite) : bool :=
  defined (satrec sat) || truthy_prop (altitude sat).

(** The body of the inner loop, for the indices [i] and [j]. *)
Definition pair_body (trackableSats : list Satellite) (i : nat)
  (conjunctions : list Conjunction) (j : nat) : result (list Conjunction) :=
  match nth_error trackableSats i, nth_error trackableSats j with
  | Some sat1, Some sat2 =>
      if (Num.Math_abs (ToNumber_undefined (altitude sat1)
                        - ToNumber_undefined (altitude sat2)) >? Fin 100)%num
      then Ok conjunctions
      else
        closestApproach <- findClosestApproach sat1 sat2 ;;
        match closestApproach with
        | Some ca =>
            if (missDistance ca <? HIGH_RISK_THRESHOLD_KM)%num then
              Ok (conjunctions ++
                  [{| sat1 := sat1;
                      sat2 := sat2;
                      closest := ca;
                      riskLevel := getRiskLevel (missDistance ca) (relativeVelocity ca);
                      id := {| id_sat1 := name sat1;
                               id_sat2 := name sat2;
                               id_now := Date_now |} |}])
            else Ok conjunctions
        | None => Ok conjunctions
        end
  | _, _ => TypeError (* trackableSats[k].altitude with k out of range *)
  end.

Definition row_body (trackableSats : list Satellite)
  (conjunctions : list Conjunction) (i : nat) : result (list Conjunction) :=
  let n := List.length trackableSats in
  for_each (seq (S i) (n - S i)) (pair_body trackableSats i) conjunctions.

Definition by_time (a b : Conjunction) : number :=
  (ToNumber_null (timeToClosestApproach (closest a))
   - ToNumber_null (timeToClosestApproach (closest b)))%num.

(** The conjunctions pushed by the pairwise loop, before sorting. *)
Definition scan (satellites : list Satellite) : result (list Conjunction) :=
  let trackableSats := filter trackable satellites in
  for_each (seq 0 (List.length trackableSats)) (row_body trackableSats) [].

Definition detectConjunctions (satellites : list Satellite)
  : result (list Conjunction) :=
  conjunctions <- scan satellites ;;
  Ok (firstn 5 (Array_sort by_time conjunctions)).

(** [for (let i = 0; i < fragmentCount; i++)].  The loop has no bound of its
    own, so the model takes fuel: [None] is a run that has not left the loop
    when the fuel is spent. *)
Fixpoint debris_loop (fuel : nat) (conjunction : Conjunction) (fragmentCount : number)
  (i : nat) (debris : list Fragment) (rnd : RandomSource)
  : option (result (list Fragment * RandomSource)) :=
  if (Num.of_nat i <? fragmentCount)%num then
    match fuel with
    | O => None
    | S fuel' =>
        let rv := relativeVelocity (closest conjunction) in
        let (r1, rnd1) := Math_random rnd in
        let (r2, rnd2) := Math_random rnd1 in
        let (r3, rnd3) := Math_random rnd2 in
        let deltaV :=
          {| x := ((r1 - Fin (1 # 2)) * rv * Fin (3 # 10))%num;
             y := ((r2 - Fin (1 # 2)) * rv * Fin (3 # 10))%num;
             z := ((r3 - Fin (1 # 2)) * rv * Fin (3 # 10))%num |} in
        match positions (closest conjunction) with
        | None => Some TypeError (* positions.sat1 *)
        | Some ps =>
            let (r4, rnd4) := Math_random rnd3 in
            debris_loop fuel' conjunction fragmentCount (S i)
              (debris ++
               [{| frag_position := Some (pos_sat1 ps);
                   frag_velocity := deltaV;
                   size := (r4 * Fin (1 # 2))%num;
                   satellite1Name := name (sat1 conjunction);
                   satellite2Name := name (sat2 conjunction);
                   createdAt := Date_now |}])
              rnd4
        end
    end
  else Some (Ok (debris, rnd)).

Definition fragmentCount_of (conjunction : Conjunction) : number :=
  Num.Math_floor (Fin 50 + relativeVelocity (closest conjunction) * Fin 10)%num.

Definition simulateDebrisCascade (fuel : nat) (rnd : RandomSource)
  (conjunction : Conjunction) : option (result (list Fragment * RandomSource)) :=
  debris_loop fuel conjunction (fragmentCount_of conjunction) 0 [] rnd.

Definition inDebrisZone (debris : list Fragment) (sat : Satellite) : bool :=
  existsb
    (fun frag =>
       match sat_position sat, frag_position frag with
       | Some sp, Some fp => (calculateDistance3D sp fp <? Fin 100)%num
       | _, _ => false
       end)
    debris.

Fixpoint identifyAffectedSatellites (debris : list Fragment)
  (allSatellites : list Satellite) : list ImpactRecord :=
  match allSatellites with
  | [] => []
  | sat :: rest =>
      if inDebrisZone debris sat then
        {| satellite := sat;
           impact_riskLevel := ELEVATED;
           reason := "In debris field path" |}
        :: identifyAffectedSatellites debris rest
      else identifyAffectedSatellites debris rest
  end.


(** ** The catalog (satelliteService.js) *)

Section Catalog.
(** The functions of satellite.js that read a TLE; [twoline2satrec] gives no
    record when it throws. *)
Variable twoline2satrec : string -> string -> option Satrec.
Variable gstime : number -> number.
Variable eciToGeodetic : Vec3 -> number -> Geodetic.

(** [String.prototype.trim], over the white space of the platform. *)
Variable String_trim : string -> string.
(** [String(v)] for a finite [v] that is not an integer below [2^53]: the
    shortest decimal form that reads back as [v], in exponent notation from
    [10^21] on. *)
Variable Number_toString_other : Q -> string.
(** [v.toFixed(digits)], the decimal rounding of the platform. *)
Variable Number_toFixed : number -> nat -> string.

(** [s.split(sep)] for a separator of one character. *)
Fixpoint String_split (sep : ascii) (s : string) : list string :=
  match s with
  | EmptyString => [EmptyString]
  | String c rest =>
      if Ascii.eqb c sep then EmptyString :: String_split sep rest
      else
        match String_split sep rest with
        | l :: ls => String c l :: ls
        | [] => [String c EmptyString]
        end
  end.

(** [String(v)].  An integer below [2^53] in absolute value prints all its
    decimal digits; a larger one prints the shortest digits that read back
    as the same double, which is left to the platform. *)
Definition Number_toString (v : number) : string :=
  match v with
  | NaN => "NaN"
  | PInf => "Infinity"
  | NInf => "-Infinity"
  | Fin q =>
      let r := Qred q in
      if ((Qden r =? 1)%positive && (Z.abs (Qnum r) <? 2 ^ 53)%Z)%bool
      then NilZero.string_of_int (Z.to_int (Qnum r))
      else Number_toString_other q
  end.

(** [s.padStart(targetLength, c)] for a filler of one character. *)
Definition String_padStart (s : string) (targetLength : nat) (c : ascii) : string :=
  (string_of_list_ascii (repeat c (targetLength - String.length s)) ++ s)%string.

(** [n % d]: the remainder of the division truncated towards zero. *)
Definition Number_remainder (n d : number) : number :=
  match n, d with
  | Fin p, Fin q =>
      if Qeq_bool q 0 then NaN
      else
        let quotient := (p / q)%Q in
        Fin (p - q * inject_Z (Z.quot (Qnum quotient) (Zpos (Qden quotient))))
  | Fin p, (PInf | NInf) => Fin p
  | _, _ => NaN
  end.

(** The body of the loop of [parseTLEData], over the lines from the index
    [i] on: three lines an object, an object pushed when the record
    propagates to a position with a truthy [x]; an exception anywhere skips
    the object. *)
Fixpoint parseTLEData_loop (lines : list string) : list CatalogObject :=
  match lines with
  | line0 :: line1 :: line2 :: rest =>
      let name := String_trim line0 in
      let tleLine1 := String_trim line1 in
      let tleLine2 := String_trim line2 in
      match twoline2satrec tleLine1 tleLine2 with
      | Some satrec =>
          let now := Date_now in
          let positionAndVelocity := satrec now in
          match pv_position positionAndVelocity with
          | Some p =>
              if Num.truthy (x p) then
                let gmst := gstime now in
                let positionGd := eciToGeodetic p gmst in
                {| object :=
                     {| name := name;
                        satrec := Some satrec;
                        sat_timestamp := Some now;
                        altitude := Some (height positionGd);
                        latitude :=
                          Some (gd_latitude positionGd * (Fin 180 / Num.Math_PI))%num;
                        longitude :=
                          Some (gd_longitude positionGd * (Fin 180 / Num.Math_PI))%num;
                        sat_position := Some p |};
                   obj_velocity := pv_velocity positionAndVelocity;
                   tleLine1 := Some tleLine1;
                   tleLine2 := Some tleLine2;
                   type := None;
                   color := None;
                   service := None |}
                :: parseTLEData_loop rest
              else parseTLEData_loop rest
          | None => parseTLEData_loop rest
          end
      | None => parseTLEData_loop rest
      end
  | _ => []
  end.

Definition parseTLEData (tleString : string) : list CatalogObject :=
  parseTLEData_loop (String_split "010" (String_trim tleString)).

(** The object literal of the generated objects:
    [{name, type, color, altitude, latitude, longitude, service,
      timestamp: new Date()}]. *)
Definition generated (name type color : string) (altitude latitude longitude : number)
  (service : string) : CatalogObject :=
  {| object :=
       {| name := name;
          satrec := None;
          sat_timestamp := Some Date_now;
          altitude := Some altitude;
          latitude := Some latitude;
          longitude := Some longitude;
          sat_position := None |};
     obj_velocity := None;
     tleLine1 := None;
     tleLine2 := None;
     type := Some type;
     color := Some color;
     service := Some service |}.

Definition generateSyntheticDebris_body (st : list CatalogObject * RandomSource) (i : nat)
  : list CatalogObject * RandomSource :=
  let (debris, rnd) := st in
  let (r1, rnd1) := Math_random rnd in
  let altitude := (Fin 300 + r1 * Fin 500)%num in
  let (r2, rnd2) := Math_random rnd1 in
  let (r3, rnd3) := Math_random rnd2 in
  (debris ++
   [generated ("DEBRIS-" ++ Number_toString (Fin 1000 + Num.of_nat i)) "debris" "#ff00ff"
      altitude ((r2 - Fin (1 # 2)) * Fin 180)%num ((r3 - Fin (1 # 2)) * Fin 360)%num
      "Space Debris"],
   rnd3).

(** [count] is a natural number, as in the call [generateSyntheticDebris(20)]. *)
Definition generateSyntheticDebris (count : nat) (rnd : RandomSource)
  : list CatalogObject * RandomSource :=
  fold_left generateSyntheticDebris_body (seq 0 count) ([], rnd).

Definition demo_longitude (angle : number) : number :=
  (Number_remainder (angle * Fin 180 / Num.Math_PI) (Fin 360) - Fin 180)%num.

Definition generateDemoSatellites : list CatalogObject :=
  let demo :=
    [generated "ISS (DEMO)" "crewed" "#ff0000" (Fin 408) (Fin (516 # 10)) (Fin 0)
       "International Space Station"] in
  let demo :=
    fold_left
      (fun demo i =>
         let angle := (Num.of_nat i / Fin 50 * Fin 2 * Num.Math_PI)%num in
         demo ++
         [generated ("STARLINK-" ++ Number_toString (Num.of_nat i + Fin 1000))
            "broadband" "#00ffff" (Fin 550) (Math_sin angle * Fin 53)%num
            (demo_longitude angle) "Starlink Broadband"])
      (seq 0 50) demo in
  fold_left
    (fun demo i =>
       let angle := (Num.of_nat i / Fin 12 * Fin 2 * Num.Math_PI)%num in
       demo ++
       [generated ("GPS-" ++ Number_toString (Num.of_nat i + Fin 1))
          "navigation" "#ffaa00" (Fin 20180) (Math_sin angle * Fin 55)%num
          (demo_longitude angle) "GPS Navigation & Timing"])
    (seq 0 12) demo.

(** ** The conjunction panel (components/ConjunctionPanel.js) *)

Definition formatCountdown (minutes : number) : string :=
  let totalSeconds := Num.Math_floor (minutes * Fin 60)%num in
  let mins := Num.Math_floor (totalSeconds / Fin 60)%num in
  let secs := Number_remainder totalSeconds (Fin 60) in
  ("T-" ++ String_padStart (Number_toString mins) 2 "0" ++ ":"
   ++ String_padStart (Number_toString secs) 2 "0")%string.

(** [Math.round]: the nearest integer, a half rounding up. *)
Definition Math_round (v : number) : number :=
  match v with
  | Fin q => Num.of_Z (Qfloor (q + (1 # 2)))
  | _ => v
  end.

(** The miss distance a conjunction card shows: in metres below 1 km, in
    kilometres from 1 km on. *)
Definition missDistance_value (conj : Conjunction) : string :=
  if (missDistance (closest conj) <? Fin 1)%num
  then (Number_toString (Math_round (missDistance (closest conj) * Fin 1000)%num) ++ " m")%string
  else (Number_toFixed (missDistance (closest conj)) 2 ++ " km")%string.

End Catalog.


(** ** Vocabulary of the properties *)

(** The only access that can throw is [sat.timestamp.getTime()] in
    [propagateSatellite], reached by an object that has a [satrec]. *)
Definition well_dated (sat : Satellite) : Prop :=
  defined (satrec sat) = true -> defined (sat_timestamp sat) = true.

(** The state the resolver gives an object at the step [k]; [None] when it
    gives none. *)
Definition resolved (sat : Satellite) (k : nat) : option State :=
  match propagateSatellitePosition sat (minutesAhead_of k) with
  | Ok o => o
  | TypeError => None
  end.

(** The search has seen the steps below [n] and holds [s]. *)
Definition search_inv (tr1 tr2 : nat -> option State) (n : nat) (s : Search) : Prop :=
  (s = search_start /\
   forall j a b, (j < n)%nat -> tr1 j = Some a -> tr2 j = Some b ->
     (calculateDistance3D (position a) (position b) <? PInf)%num = false)
  \/
  (exists k a b,
     (k < n)%nat /\ tr1 k = Some a /\ tr2 k = Some b /\
     minDistance s = calculateDistance3D (position a) (position b) /\
     (minDistance s <? PInf)%num = true /\
     closestTime s = Some (minutesAhead_of k) /\
     closestPositions s = Some {| pos_sat1 := position a; pos_sat2 := position b |} /\
     (forall v1 v2, velocity a = Some v1 -> velocity b = Some v2 ->
                    closestRelVel s = calculateRelativeVelocity v1 v2) /\
     (forall j a' b', (j < n)%nat -> tr1 j = Some a' -> tr2 j = Some b' ->
        (calculateDistance3D (position a') (position b') <? minDistance s)%num = false) /\
     (forall j a' b', (j < k)%nat -> tr1 j = Some a' -> tr2 j = Some b' ->
        (calculateDistance3D (position a') (position b') <=? minDistance s)%num = false)).

(** The altitude gate of the inner loop: [true] rejects the pair. *)
Definition altitude_gate (a b : Satellite) : bool :=
  (Num.Math_abs (ToNumber_undefined (altitude a) - ToNumber_undefined (altitude b))
   >? Fin 100)%num.

(** [c] is what the inner loop pushes for the objects [sat1 c] and [sat2 c]. *)
Definition qualifies (c : Conjunction) : Prop :=
  altitude_gate (sat1 c) (sat2 c) = false /\
  findClosestApproach (sat1 c) (sat2 c) = Ok (Some (closest c)) /\
  (missDistance (closest c) <? HIGH_RISK_THRESHOLD_KM)%num = true /\
  riskLevel c = getRiskLevel (missDistance (closest c)) (relativeVelocity (closest c)) /\
  id c = {| id_sat1 := name (sat1 c); id_sat2 := name (sat2 c); id_now := Date_now |}.

(** [c] is the conjunction of the objects at the indices [fst p < snd p]. *)
Definition from_pair (l : list Satellite) (p : nat * nat) (c : Conjunction) : Prop :=
  (fst p < snd p < List.length l)%nat /\
  nth_error l (fst p) = Some (sat1 c) /\
  nth_error l (snd p) = Some (sat2 c) /\
  qualifies c.

(** The order in which the two loops visit the pairs of indices. *)
Definition visited_before (p q : nat * nat) : Prop :=
  (fst p < fst q)%nat \/ (fst p = fst q /\ snd p < snd q)%nat.

(** The conjunctions [cs] are those of the pairs visited before [bound], in
    the order of the visit. *)
Definition scan_inv (l : list Satellite) (bound : nat * nat) (cs : list Conjunction)
  : Prop :=
  exists ps,
    Forall2 (from_pair l) ps cs /\
    StronglySorted visited_before ps /\
    Forall (fun p => visited_before p bound) ps /\
    (forall p c, visited_before p bound -> from_pair l p c -> In c cs).

Definition time_of (c : Conjunction) : number :=
  ToNumber_null (timeToClosestApproach (closest c)).

Definition finite_time (c : Conjunction) : Prop := exists q, time_of c = Fin q.

(** [a] is due no later than [b]. *)
Definition time_le (a b : Conjunction) : Prop := (time_of a <=? time_of b)%num = true.

(** [c] is due at the minute [t]. *)
Definition due_at (t : Q) (c : Conjunction) : bool :=
  match time_of c with
  | Fin q => Qeq_bool q t
  | _ => false
  end.

(** The order the specification words give the returned list: ascending in
    time, and by smaller miss distance first among equal times.  [true] when
    [a] may stand before [b] in that order. *)
Definition tie_broken_order (a b : Conjunction) : bool :=
  (time_of a <? time_of b)%num
  || ((time_of a <=? time_of b)%num
      && (missDistance (closest a) <=? missDistance (closest b))%num).

Definition impact (sat : Satellite) : ImpactRecord :=
  {| satellite := sat; impact_riskLevel := ELEVATED; reason := "In debris field path" |}.

(** The fragment the loop body pushes when the next four draws are those at
    [base], [base + 1], [base + 2] and [base + 3]. *)
Definition fragment_of (conjunction : Conjunction) (ps : Positions) (d : nat -> Q)
  (base : nat) : Fragment :=
  let rv := relativeVelocity (closest conjunction) in
  {| frag_position := Some (pos_sat1 ps);
     frag_velocity :=
       {| x := ((Fin (d base) - Fin (1 # 2)) * rv * Fin (3 # 10))%num;
          y := ((Fin (d (S base)) - Fin (1 # 2)) * rv * Fin (3 # 10))%num;
          z := ((Fin (d (S (S base))) - Fin (1 # 2)) * rv * Fin (3 # 10))%num |};
     size := (Fin (d (S (S (S base)))) * Fin (1 # 2))%num;
     satellite1Name := name (sat1 conjunction);
     satellite2Name := name (sat2 conjunction);
     createdAt := Date_now |}.

(** ** Vocabulary of the further properties *)

(** Two numbers are the same number: a finite value has many fractions. *)
Definition num_eq (a b : number) : Prop :=
  match a, b with
  | NaN, NaN | PInf, PInf | NInf, NInf => True
  | Fin p, Fin q => (p == q)%Q
  | _, _ => False
  end.

(** A closest approach with its two objects exchanged. *)
Definition swap_positions (ps : Positions) : Positions :=
  {| pos_sat1 := pos_sat2 ps; pos_sat2 := pos_sat1 ps |}.

Definition swap_approach (ca : ClosestApproach) : ClosestApproach :=
  {| missDistance := missDistance ca;
     timeToClosestApproach := timeToClosestApproach ca;
     relativeVelocity := relativeVelocity ca;
     positions := option_map swap_positions (positions ca);
     ca_timestamp := ca_timestamp ca |}.

Definition swap_search (s : Search) : Search :=
  {| minDistance := minDistance s;
     closestTime := closestTime s;
     closestRelVel := closestRelVel s;
     closestPositions := option_map swap_positions (closestPositions s) |}.

(** An object the resolver can give a state: it has a [satrec], or an
    altitude, a latitude and a longitude for the fallback propagation. *)
Definition resolvable (sat : Satellite) : bool :=
  defined (satrec sat)
  || (truthy_prop (altitude sat) && defined (latitude sat) && defined (longitude sat)).

(** An object with a [satrec] and no timestamp: its resolution throws. *)
Definition undated (sat : Satellite) : bool :=
  defined (satrec sat) && negb (defined (sat_timestamp sat)).

(** A position with three finite coordinates. *)
Definition finite_position (p : Vec3) : Prop :=
  exists qx qy qz, p = {| x := Fin qx; y := Fin qy; z := Fin qz |}.

(** An object with a position less than 100 km from the point [p]. *)
Definition near (p : Vec3) (sat : Satellite) : bool :=
  match sat_position sat with
  | Some sp => (calculateDistance3D sp p <? Fin 100)%num
  | None => false
  end.

(** The decimal digits of an integer. *)
Definition decimal (z : Z) : string := NilZero.string_of_int (Z.to_int z).

(** The object [generateSyntheticDebris] pushes in its turn [i], from the
    draws [d] numbered from [b] on. *)
Definition synthetic (other : Q -> string) (d : nat -> Q) (b i : nat) : CatalogObject :=
  generated ("DEBRIS-" ++ Number_toString other (Fin 1000 + Num.of_nat i)) "debris" "#ff00ff"
    (Fin 300 + Fin (d (b + 3 * i)%nat) * Fin 500)%num
    ((Fin (d (S (b + 3 * i))) - Fin (1 # 2)) * Fin 180)%num
    ((Fin (d (S (S (b + 3 * i)))) - Fin (1 # 2)) * Fin 360)%num
    "Space Debris".

(** An object of the generators: without orbital record and position, with
    an altitude, a latitude, a longitude and a timestamp. *)
Definition placed (sat : Satellite) (alt : number) : Prop :=
  satrec sat = None /\ sat_position sat = None /\
  sat_timestamp sat = Some Date_now /\
  altitude sat = Some alt /\ defined (latitude sat) = true /\ defined (longitude sat) = true.

(** The objects [generateDemoSatellites] pushes in the turn [i] of its two
    loops, and the one it starts with. *)
Definition demo_station : CatalogObject :=
  generated "ISS (DEMO)" "crewed" "#ff0000" (Fin 408) (Fin (516 # 10)) (Fin 0)
    "International Space Station".

Definition demo_starlink (other : Q -> string) (i : nat) : CatalogObject :=
  let angle := (Num.of_nat i / Fin 50 * Fin 2 * Num.Math_PI)%num in
  generated ("STARLINK-" ++ Number_toString other (Num.of_nat i + Fin 1000))
    "broadband" "#00ffff" (Fin 550) (Math_sin angle * Fin 53)%num
    (demo_longitude angle) "Starlink Broadband".

Definition demo_gps (other : Q -> string) (i : nat) : CatalogObject :=
  let angle := (Num.of_nat i / Fin 12 * Fin 2 * Num.Math_PI)%num in
  generated ("GPS-" ++ Number_toString other (Num.of_nat i + Fin 1))
    "navigation" "#ffaa00" (Fin 20180) (Math_sin angle * Fin 55)%num
    (demo_longitude angle) "GPS Navigation & Timing".

(** * Properties *)

(** ** The order on numbers *)

Lemma Qlt_bool_iff (a b : Q) : Num.Qlt_bool a b = true <-> (a < b)%Q.
Proof.
  unfold Num.Qlt_bool. rewrite negb_true_iff.
  split; intro H.
  - apply Qnot_le_lt. intro Hle. apply Qle_bool_iff in Hle. congruence.
  - destruct (Qle_bool b a) eqn:E; [|reflexivity].
    apply Qle_bool_iff in E. exfalso. apply (Qlt_not_le _ _ H E).
Qed.

Lemma Qlt_bool_false_iff (a b : Q) : Num.Qlt_bool a b = false <-> (b <= a)%Q.
Proof.
  unfold Num.Qlt_bool. rewrite negb_false_iff. apply Qle_bool_iff.
Qed.

Lemma Qle_bool_false_iff (a b : Q) : Qle_bool a b = false <-> (b < a)%Q.
Proof.
  rewrite <- Qlt_bool_iff. unfold Num.Qlt_bool. now rewrite negb_true_iff.
Qed.

(** Turns the boolean comparisons of the context and the goal into
    propositions over [Q]. *)
Ltac Qbool :=
  repeat match goal with
    | H : Num.Qlt_bool _ _ = true |- _ => apply Qlt_bool_iff in H
    | H : Num.Qlt_bool _ _ = false |- _ => apply Qlt_bool_false_iff in H
    | H : Qle_bool _ _ = true |- _ => apply Qle_bool_iff in H
    | H : Qle_bool _ _ = false |- _ => apply Qle_bool_false_iff in H
    | H : Qeq_bool _ _ = true |- _ => apply Qeq_bool_iff in H
    | H : Qeq_bool _ _ = false |- _ => apply Qeq_bool_neq in H
    | |- Num.Qlt_bool _ _ = true => apply Qlt_bool_iff
    | |- Num.Qlt_bool _ _ = false => apply Qlt_bool_false_iff
    | |- Qle_bool _ _ = true => apply Qle_bool_iff
    | |- Qle_bool _ _ = false => apply Qle_bool_false_iff
    | |- Qeq_bool _ _ = true => apply Qeq_bool_iff
    end.

Ltac num_order :=
  unfold Num.gtb in *; simpl in *; try discriminate; try reflexivity;
  Qbool; try lra.

Lemma ltb_irrefl (a : number) : (a <? a)%num = false.
Proof. destruct a; num_order. Qed.

Lemma ltb_trans (a b c : number) :
  (a <? b)%num = true -> (b <? c)%num = true -> (a <? c)%num = true.
Proof. destruct a, b, c; intros; num_order. Qed.

Lemma ltb_leb_trans (a b c : number) :
  (a <? b)%num = true -> (b <=? c)%num = true -> (a <? c)%num = true.
Proof. destruct a, b, c; intros; num_order. Qed.

Lemma leb_ltb_trans (a b c : number) :
  (a <=? b)%num = true -> (b <? c)%num = true -> (a <? c)%num = true.
Proof. destruct a, b, c; intros; num_order. Qed.

Lemma leb_trans (a b c : number) :
  (a <=? b)%num = true -> (b <=? c)%num = true -> (a <=? c)%num = true.
Proof. destruct a, b, c; intros; num_order. Qed.

Lemma leb_not_ltb (a b : number) : (a <=? b)%num = true -> (b <? a)%num = false.
Proof. destruct a, b; intros; num_order. Qed.

Lemma ltb_leb (a b : number) : (a <? b)%num = true -> (a <=? b)%num = true.
Proof. destruct a, b; intros; num_order. Qed.

(** ** C2: the risk classifier *)

(** C2.  [getRiskLevel] follows the table of thresholds: below 0.1 km it gives
    CRITICAL, from 0.1 to below 0.5 HIGH, from 0.5 to below 1.0 ELEVATED and
    from 1.0 on MODERATE; the six boundary values 0.099, 0.1, 0.499, 0.5,
    0.999 and 1.0 fall on the side the table gives them; a smaller miss
    distance never gives a less urgent tier; and the relative velocity does
    not change the tier. *)
Theorem getRiskLevel_table :
  (forall d v, (d <? Fin (1 # 10))%num = true -> getRiskLevel d v = CRITICAL) /\
  (forall d v, (Fin (1 # 10) <=? d)%num = true -> (d <? Fin (5 # 10))%num = true ->
               getRiskLevel d v = HIGH) /\
  (forall d v, (Fin (5 # 10) <=? d)%num = true -> (d <? Fin 1)%num = true ->
               getRiskLevel d v = ELEVATED) /\
  (forall d v, (Fin 1 <=? d)%num = true -> getRiskLevel d v = MODERATE) /\
  (forall v,
      getRiskLevel (Fin (99 # 1000)) v = CRITICAL /\
      getRiskLevel (Fin (1 # 10)) v = HIGH /\
      getRiskLevel (Fin (499 # 1000)) v = HIGH /\
      getRiskLevel (Fin (5 # 10)) v = ELEVATED /\
      getRiskLevel (Fin (999 # 1000)) v = ELEVATED /\
      getRiskLevel (Fin 1) v = MODERATE) /\
  (forall d1 d2 v1 v2, (d1 <=? d2)%num = true ->
                       (urgency (getRiskLevel d2 v2) <= urgency (getRiskLevel d1 v1))%nat) /\
  (forall d v1 v2, getRiskLevel d v1 = getRiskLevel d v2).
Proof.
  repeat split.
  - intros d v H. unfold getRiskLevel. now rewrite H.
  - intros d v H1 H2. unfold getRiskLevel.
    rewrite (leb_not_ltb _ _ H1), H2. reflexivity.
  - intros d v H1 H2. unfold getRiskLevel.
    assert (H0 : (Fin (1 # 10) <=? d)%num = true).
    { apply leb_trans with (Fin (5 # 10)); [reflexivity | assumption]. }
    rewrite (leb_not_ltb _ _ H0), (leb_not_ltb _ _ H1), H2. reflexivity.
  - intros d v H1. unfold getRiskLevel.
    assert (H5 : (Fin (5 # 10) <=? d)%num = true).
    { apply leb_trans with (Fin 1); [reflexivity | assumption]. }
    assert (H0 : (Fin (1 # 10) <=? d)%num = true).
    { apply leb_trans with (Fin 1); [reflexivity | assumption]. }
    rewrite (leb_not_ltb _ _ H0), (leb_not_ltb _ _ H5), (leb_not_ltb _ _ H1).
    reflexivity.
  - intros d1 d2 v1 v2 H. unfold getRiskLevel.
    destruct (d2 <? Fin (1 # 10))%num eqn:E1.
    { rewrite (leb_ltb_trans _ _ _ H E1). simpl. lia. }
    destruct (d2 <? Fin (5 # 10))%num eqn:E2.
    { rewrite (leb_ltb_trans _ _ _ H E2).
      destruct (d1 <? Fin (1 # 10))%num; simpl; lia. }
    destruct (d2 <? Fin 1)%num eqn:E3.
    { rewrite (leb_ltb_trans _ _ _ H E3).
      destruct (d1 <? Fin (1 # 10))%num, (d1 <? Fin (5 # 10))%num; simpl; lia. }
    simpl. lia.
Qed.

Lemma getRiskLevel_table_witness :
  getRiskLevel (Fin (3 # 10)) (Fin 8) = HIGH.
Proof.
  apply (proj1 (proj2 getRiskLevel_table)); reflexivity.
Defined.

(** ** Loops over a range of indices *)

Lemma for_each_seq_inv {S : Type} (P : nat -> S -> Prop)
  (body : S -> nat -> result S) (len start : nat) (s : S) :
  P start s ->
  (forall k t, (start <= k < start + len)%nat -> P k t ->
               exists t', body t k = Ok t' /\ P (Datatypes.S k) t') ->
  exists t, for_each (seq start len) body s = Ok t /\ P (start + len)%nat t.
Proof.
  revert start s. induction len as [|len IH]; intros start s H0 Hstep.
  - exists s. rewrite Nat.add_0_r. split; [reflexivity | assumption].
  - destruct (Hstep start s ltac:(lia) H0) as (t' & Hb & Ht').
    destruct (IH (Datatypes.S start) t' Ht') as (t & Hrun & Ht).
    + intros k u Hk Hu. apply Hstep; [lia | assumption].
    + exists t. simpl. rewrite Hb. simpl. split; [assumption|].
      now replace (start + Datatypes.S len)%nat with (Datatypes.S start + len)%nat by lia.
Qed.

(** ** C1: the closest-approach search *)

Lemma ltb_false_below (a m d : number) :
  (a <? m)%num = false -> (d <? m)%num = true -> (a <=? d)%num = false.
Proof. destruct a, m, d; intros; num_order. Qed.

Lemma leb_false_ltb_false (a d : number) :
  (a <=? d)%num = false -> (a <? d)%num = false.
Proof. destruct a, d; intros; num_order. Qed.

Lemma ltb_PInf_not_Infinity (d : number) :
  (d <? PInf)%num = true -> Num.is_Infinity d = false.
Proof. destruct d; intros; num_order. Qed.

Section Search.
Variables sat1 sat2 : Satellite.
(** The states the resolver gives the two objects at each step. *)
Variables tr1 tr2 : nat -> option State.
Hypothesis resolve1 : forall k, (k <= TIME_STEPS)%nat ->
  propagateSatellitePosition sat1 (minutesAhead_of k) = Ok (tr1 k).
Hypothesis resolve2 : forall k, (k <= TIME_STEPS)%nat ->
  propagateSatellitePosition sat2 (minutesAhead_of k) = Ok (tr2 k).

Lemma search_body_inv (n : nat) (s : Search) :
  (n <= TIME_STEPS)%nat -> search_inv tr1 tr2 n s ->
  exists s', search_body sat1 sat2 s n = Ok s' /\ search_inv tr1 tr2 (S n) s'.
Proof.
  intros Hn Hinv. unfold search_body.
  rewrite (resolve1 Hn), (resolve2 Hn). simpl.
  destruct (tr1 n) as [a|] eqn:E1; [destruct (tr2 n) as [b|] eqn:E2|].
  - destruct (calculateDistance3D (position a) (position b) <? minDistance s)%num eqn:Elt.
    + eexists; split; [reflexivity|]. right. exists n, a, b. simpl.
      assert (Hfin : (calculateDistance3D (position a) (position b) <? PInf)%num = true).
      { destruct Hinv as [[-> _] | (k & a0 & b0 & _ & _ & _ & _ & Hk & _)].
        - exact Elt.
        - eapply ltb_trans; eassumption. }
      assert (Hbefore : forall j a' b', (j < n)%nat -> tr1 j = Some a' -> tr2 j = Some b' ->
                (calculateDistance3D (position a') (position b')
                 <=? calculateDistance3D (position a) (position b))%num = false).
      { intros j a' b' Hj Ha' Hb'. apply ltb_false_below with (minDistance s); [|exact Elt].
        destruct Hinv as [[-> Hnone] | (k & a0 & b0 & _ & _ & _ & _ & _ & _ & _ & _ & Hmin & _)].
        - simpl. eapply Hnone; eassumption.
        - eapply Hmin; eassumption. }
      repeat split; try assumption; try lia.
      * intros v1 v2 -> ->. reflexivity.
      * intros j a' b' Hj Ha' Hb'.
        destruct (Nat.eq_dec j n) as [-> | Hne].
        -- rewrite E1 in Ha'. rewrite E2 in Hb'. injection Ha' as <-. injection Hb' as <-.
           apply ltb_irrefl.
        -- apply leb_false_ltb_false. apply (Hbefore j); [lia | assumption | assumption].
    + exists s. split; [reflexivity|].
      destruct Hinv as [[-> Hnone] | (k & a0 & b0 & Hk & Ha0 & Hb0 & Hd & Hf & Ht & Hp & Hv & Hmin & Hfirst)].
      * left. split; [reflexivity|]. intros j a' b' Hj Ha' Hb'.
        destruct (Nat.eq_dec j n) as [-> | Hne].
        -- rewrite E1 in Ha'. rewrite E2 in Hb'. injection Ha' as <-. injection Hb' as <-.
           exact Elt.
        -- apply (Hnone j); [lia | assumption | assumption].
      * right. exists k, a0, b0. repeat split; try assumption; try lia.
        intros j a' b' Hj Ha' Hb'.
        destruct (Nat.eq_dec j n) as [-> | Hne].
        -- rewrite E1 in Ha'. rewrite E2 in Hb'. injection Ha' as <-. injection Hb' as <-.
           exact Elt.
        -- apply (Hmin j); [lia | assumption | assumption].
  - exists s. split; [reflexivity|].
    destruct Hinv as [[-> Hnone] | (k & a0 & b0 & Hk & Ha0 & Hb0 & Hd & Hf & Ht & Hp & Hv & Hmin & Hfirst)].
    + left. split; [reflexivity|]. intros j a' b' Hj Ha' Hb'.
      destruct (Nat.eq_dec j n) as [-> | Hne]; [congruence|].
      apply (Hnone j); [lia | assumption | assumption].
    + right. exists k, a0, b0. repeat split; try assumption; try lia.
      intros j a' b' Hj Ha' Hb'.
      destruct (Nat.eq_dec j n) as [-> | Hne]; [congruence|].
      apply (Hmin j); [lia | assumption | assumption].
  - exists s. split; [reflexivity|].
    destruct Hinv as [[-> Hnone] | (k & a0 & b0 & Hk & Ha0 & Hb0 & Hd & Hf & Ht & Hp & Hv & Hmin & Hfirst)].
    + left. split; [reflexivity|]. intros j a' b' Hj Ha' Hb'.
      destruct (Nat.eq_dec j n) as [-> | Hne]; [congruence|].
      apply (Hnone j); [lia | assumption | assumption].
    + right. exists k, a0, b0. repeat split; try assumption; try lia.
      intros j a' b' Hj Ha' Hb'.
      destruct (Nat.eq_dec j n) as [-> | Hne]; [congruence|].
      apply (Hmin j); [lia | assumption | assumption].
Qed.

Lemma search_loop_inv :
  exists s, for_each (seq 0 (S TIME_STEPS)) (search_body sat1 sat2) search_start = Ok s
            /\ search_inv tr1 tr2 (S TIME_STEPS) s.
Proof.
  apply for_each_seq_inv with (P := search_inv tr1 tr2) (start := 0%nat).
  - left. split; [reflexivity|]. intros; lia.
  - intros k t Hk Ht. apply search_body_inv; [lia | assumption].
Qed.

End Search.

Lemma propagateSatellitePosition_total (sat : Satellite) (m : number) :
  well_dated sat -> exists o, propagateSatellitePosition sat m = Ok o.
Proof.
  unfold well_dated, propagateSatellitePosition, propagateSatellite.
  intros H. destruct (satrec sat) as [rec|]; simpl in *.
  - destruct (sat_timestamp sat) as [t0|]; simpl in *.
    + destruct (pv_position (rec _)); eauto.
    + specialize (H eq_refl). discriminate.
  - destruct (_ && _); eauto.
Qed.

Lemma resolved_Ok (sat : Satellite) (k : nat) :
  well_dated sat ->
  propagateSatellitePosition sat (minutesAhead_of k) = Ok (resolved sat k).
Proof.
  intros Hwd. unfold resolved.
  destruct (propagateSatellitePosition_total (minutesAhead_of k) Hwd) as (o & ->).
  reflexivity.
Qed.

(** C1.  For two objects whose resolution does not throw (an object with a
    [satrec] has its timestamp), the search samples the steps [k = 0..30] at
    [t = k/30 * 30] minutes and skips the steps where either object is
    unresolved.  If no step gives a distance below [Infinity] it returns
    [null].  Otherwise it returns the distance of a step [k] where both
    objects resolve, which no sampled distance is below (and which no earlier
    step reaches), with the time offset [k/30 * 30] and the positions of that
    step, and with the norm of the difference of the two velocity vectors of
    that step as relative velocity. *)
Theorem findClosestApproach_spec (sat1 sat2 : Satellite) :
  well_dated sat1 -> well_dated sat2 ->
  match findClosestApproach sat1 sat2 with
  | TypeError => False
  | Ok None =>
      forall k a b, (k <= 30)%nat -> resolved sat1 k = Some a -> resolved sat2 k = Some b ->
        (calculateDistance3D (position a) (position b) <? PInf)%num = false
  | Ok (Some ca) =>
      exists k a b,
        (k <= 30)%nat /\ resolved sat1 k = Some a /\ resolved sat2 k = Some b /\
        missDistance ca = calculateDistance3D (position a) (position b) /\
        (missDistance ca <? PInf)%num = true /\
        timeToClosestApproach ca = Some (Num.of_nat k / Fin 30 * Fin 30)%num /\
        positions ca = Some {| pos_sat1 := position a; pos_sat2 := position b |} /\
        (forall v1 v2, velocity a = Some v1 -> velocity b = Some v2 ->
           relativeVelocity ca = calculateRelativeVelocity v1 v2) /\
        (forall j a' b', (j <= 30)%nat ->
           resolved sat1 j = Some a' -> resolved sat2 j = Some b' ->
           (calculateDistance3D (position a') (position b') <? missDistance ca)%num = false) /\
        (forall j a' b', (j < k)%nat ->
           resolved sat1 j = Some a' -> resolved sat2 j = Some b' ->
           (calculateDistance3D (position a') (position b') <=? missDistance ca)%num = false)
  end.
Proof.
  intros H1 H2. unfold findClosestApproach.
  destruct (@search_loop_inv sat1 sat2 (resolved sat1) (resolved sat2)
              (fun k _ => resolved_Ok k H1) (fun k _ => resolved_Ok k H2))
    as (s & -> & Hinv). simpl.
  destruct Hinv as [[-> Hnone] | (k & a & b & Hk & Ha & Hb & Hd & Hf & Ht & Hp & Hv & Hmin & Hfirst)].
  - simpl. intros k a b Hk. apply Hnone. unfold TIME_STEPS. lia.
  - rewrite (ltb_PInf_not_Infinity _ Hf). simpl.
    exists k, a, b. unfold TIME_STEPS in *.
    repeat split; try assumption; try lia.
    intros j a' b' Hj. apply Hmin. lia.
Qed.

(** ** The pairwise scan *)

Lemma for_each_seq_inv_Ok {S : Type} (P : nat -> S -> Prop)
  (body : S -> nat -> result S) (len start : nat) (s t : S) :
  P start s ->
  (forall k u u', (start <= k < start + len)%nat -> P k u -> body u k = Ok u' ->
                  P (Datatypes.S k) u') ->
  for_each (seq start len) body s = Ok t ->
  P (start + len)%nat t.
Proof.
  revert start s. induction len as [|len IH]; intros start s H0 Hstep Hrun.
  - simpl in Hrun. injection Hrun as <-. now rewrite Nat.add_0_r.
  - simpl in Hrun. destruct (body s start) as [s'|] eqn:Hb; [|discriminate].
    simpl in Hrun.
    replace (start + Datatypes.S len)%nat with (Datatypes.S start + len)%nat by lia.
    apply IH with (s := s'); [| |assumption].
    + apply (Hstep start s s'); [lia | assumption | assumption].
    + intros k u u' Hk. apply Hstep. lia.
Qed.

Lemma visited_before_trans (p q r : nat * nat) :
  visited_before p q -> visited_before q r -> visited_before p r.
Proof. unfold visited_before. lia. Qed.

Lemma StronglySorted_snoc {A : Type} (R : A -> A -> Prop) (l : list A) (a : A) :
  StronglySorted R l -> Forall (fun b => R b a) l -> StronglySorted R (l ++ [a]).
Proof.
  induction 1 as [|b l Hl IH Hb]; intros Hall; simpl.
  - constructor; constructor.
  - inversion Hall as [|? ? Hba Hrest]; subst.
    constructor; [now apply IH|].
    apply Forall_app. split; [assumption | constructor; [assumption | constructor]].
Qed.

Lemma scan_inv_weaken (l : list Satellite) (b b' : nat * nat) (cs : list Conjunction) :
  scan_inv l b cs ->
  (forall p, visited_before p b -> visited_before p b') ->
  (forall p c, visited_before p b' -> from_pair l p c -> visited_before p b) ->
  scan_inv l b' cs.
Proof.
  intros (ps & HF & HS & HB & HC) Hup Hdown. exists ps. repeat split; try assumption.
  - eapply Forall_impl; [|exact HB]. intros p. apply Hup.
  - intros p c Hp Hc. apply (HC p c); [|assumption]. now apply (Hdown p c).
Qed.

Lemma pair_body_inv (l : list Satellite) (i j : nat) (cs cs' : list Conjunction) :
  (i < j)%nat ->
  scan_inv l (i, j) cs ->
  pair_body l i cs j = Ok cs' ->
  scan_inv l (i, S j) cs'.
Proof.
  intros Hij (ps & HF & HS & HB & HC) Hrun.
  assert (Hsame : (forall c, ~ from_pair l (i, j) c) -> scan_inv l (i, S j) cs).
  { intros Hno. exists ps. repeat split; try assumption.
    - eapply Forall_impl; [|exact HB]. intros p. unfold visited_before. simpl. lia.
    - intros p c Hp Hc.
      assert (Hp' : visited_before p (i, j) \/ p = (i, j)).
      { destruct p as [a b]. unfold visited_before in *. simpl in *.
        destruct (Nat.eq_dec a i), (Nat.eq_dec b j); subst; auto; left; lia. }
      destruct Hp' as [Hp' | ->]; [eauto | exfalso; eapply Hno; eassumption]. }
  unfold pair_body in Hrun.
  destruct (nth_error l i) as [s1|] eqn:E1; [|discriminate].
  destruct (nth_error l j) as [s2|] eqn:E2; [|discriminate].
  fold (altitude_gate s1 s2) in Hrun.
  destruct (altitude_gate s1 s2) eqn:Eg.
  { injection Hrun as <-. apply Hsame. intros c (_ & H1 & H2 & Hg & _).
    simpl in H1, H2. rewrite E1 in H1. rewrite E2 in H2.
    injection H1 as ->. injection H2 as ->. congruence. }
  destruct (findClosestApproach s1 s2) as [[ca|]|] eqn:Ef; simpl in Hrun; [| |discriminate].
  2:{ injection Hrun as <-. apply Hsame. intros c (_ & H1 & H2 & _ & Hc & _).
      simpl in H1, H2. rewrite E1 in H1. rewrite E2 in H2.
      injection H1 as ->. injection H2 as ->. congruence. }
  destruct (missDistance ca <? HIGH_RISK_THRESHOLD_KM)%num eqn:Em.
  2:{ injection Hrun as <-. apply Hsame. intros c (_ & H1 & H2 & _ & Hc & Hm & _).
      simpl in H1, H2. rewrite E1 in H1. rewrite E2 in H2.
      injection H1 as ->. injection H2 as ->.
      rewrite Ef in Hc. injection Hc as ->. congruence. }
  injection Hrun as <-.
  set (c0 := {| sat1 := s1; sat2 := s2; closest := ca;
                riskLevel := getRiskLevel (missDistance ca) (relativeVelocity ca);
                id := {| id_sat1 := name s1; id_sat2 := name s2; id_now := Date_now |} |}).
  assert (Hc0 : from_pair l (i, j) c0).
  { repeat split; simpl; try assumption.
    apply nth_error_Some. congruence. }
  exists (ps ++ [(i, j)]). repeat split.
  - apply Forall2_app; [assumption | constructor; [assumption | constructor]].
  - apply StronglySorted_snoc; assumption.
  - apply Forall_app. split.
    + eapply Forall_impl; [|exact HB]. intros p. unfold visited_before. simpl. lia.
    + constructor; [|constructor]. unfold visited_before. simpl. lia.
  - intros p c Hp Hc. apply in_or_app.
    assert (Hp' : visited_before p (i, j) \/ p = (i, j)).
    { destruct p as [a b]. unfold visited_before in *. simpl in *.
      destruct (Nat.eq_dec a i), (Nat.eq_dec b j); subst; auto; left; lia. }
    destruct Hp' as [Hp' | ->]; [left; eauto|].
    right. left.
    destruct Hc as (_ & H1 & H2 & _ & Hf & _ & Hr & Hid).
    simpl in H1, H2. rewrite E1 in H1. rewrite E2 in H2.
    injection H1 as H1. injection H2 as H2.
    rewrite <- H1, <- H2, Ef in Hf. injection Hf as Hf.
    destruct c as [c1 c2 cc cr cid]. simpl in *. subst. reflexivity.
Qed.

Lemma row_body_inv (l : list Satellite) (i : nat) (cs cs' : list Conjunction) :
  (i < List.length l)%nat ->
  scan_inv l (i, 0%nat) cs ->
  row_body l cs i = Ok cs' ->
  scan_inv l (S i, 0%nat) cs'.
Proof.
  intros Hi Hinv Hrun. unfold row_body in Hrun.
  apply for_each_seq_inv_Ok with (P := fun j => scan_inv l (i, j)) in Hrun.
  - replace (S i + (List.length l - S i))%nat with (List.length l) in Hrun by lia.
    apply (scan_inv_weaken Hrun).
    + intros p. unfold visited_before. simpl. lia.
    + intros p c Hp ((_ & Hlt) & _). unfold visited_before in *. simpl in *. lia.
  - apply (scan_inv_weaken Hinv).
    + intros p. unfold visited_before. simpl. lia.
    + intros p c Hp ((Hlt & _) & _). unfold visited_before in *. simpl in *. lia.
  - intros j u u' Hj Hu Hb. apply (pair_body_inv (i := i) (j := j) (cs := u)); [lia | assumption | assumption].
Qed.

(** The scan pushes, in the order of the visit, the conjunction of every pair
    of indices [i < j] of the trackable objects that qualifies, and nothing
    else. *)
Lemma scan_spec (satellites : list Satellite) (cs : list Conjunction) :
  scan satellites = Ok cs ->
  exists ps,
    Forall2 (from_pair (filter trackable satellites)) ps cs /\
    StronglySorted visited_before ps /\
    (forall p c, from_pair (filter trackable satellites) p c -> In c cs).
Proof.
  unfold scan. intros Hrun.
  apply for_each_seq_inv_Ok
    with (P := fun i => scan_inv (filter trackable satellites) (i, 0%nat)) in Hrun.
  - destruct Hrun as (ps & HF & HS & _ & HC). exists ps. repeat split; try assumption.
    intros p c Hc. apply (HC p c); [|assumption].
    destruct Hc as ((H1 & H2) & _). unfold visited_before. simpl. lia.
  - exists []. repeat split; try constructor.
    intros p c Hp. unfold visited_before in Hp. simpl in Hp. lia.
  - intros i u u' Hi Hu Hb. apply (row_body_inv (i := i) (cs := u)); [lia | assumption | assumption].
Qed.

(** ** Exceptions of a detection cycle *)

Lemma findClosestApproach_total (a b : Satellite) :
  well_dated a -> well_dated b -> exists r, findClosestApproach a b = Ok r.
Proof.
  intros Ha Hb.
  pose (t1 := fun k => match propagateSatellitePosition a (minutesAhead_of k) with
                       | Ok o => o | TypeError => None end).
  pose (t2 := fun k => match propagateSatellitePosition b (minutesAhead_of k) with
                       | Ok o => o | TypeError => None end).
  destruct (@search_loop_inv a b t1 t2) as (s & Hs & _).
  - intros k _. subst t1. simpl.
    destruct (propagateSatellitePosition_total (minutesAhead_of k) Ha) as (o & ->). reflexivity.
  - intros k _. subst t2. simpl.
    destruct (propagateSatellitePosition_total (minutesAhead_of k) Hb) as (o & ->). reflexivity.
  - unfold findClosestApproach. rewrite Hs. simpl.
    destruct (Num.is_Infinity (minDistance s)); eauto.
Qed.

Lemma scan_total (satellites : list Satellite) :
  Forall well_dated (filter trackable satellites) ->
  exists cs, scan satellites = Ok cs.
Proof.
  intros Hwd. unfold scan. set (l := filter trackable satellites) in *.
  destruct (@for_each_seq_inv _ (fun _ _ => True) (row_body l) (List.length l) 0%nat [])
    as (t & Ht & _); [exact I | | eauto].
  intros i cs Hi _. unfold row_body.
  destruct (@for_each_seq_inv _ (fun _ _ => True) (pair_body l i)
              (List.length l - S i) (S i) cs) as (t & Ht & _); [exact I | | eauto].
  intros j u Hj _. unfold pair_body.
  destruct (nth_error l i) as [s1|] eqn:E1.
  2:{ apply nth_error_None in E1. lia. }
  destruct (nth_error l j) as [s2|] eqn:E2.
  2:{ apply nth_error_None in E2. lia. }
  destruct (_ >? _)%num; [eauto|].
  assert (H1 : well_dated s1).
  { eapply Forall_forall; [exact Hwd|]. eapply nth_error_In; eassumption. }
  assert (H2 : well_dated s2).
  { eapply Forall_forall; [exact Hwd|]. eapply nth_error_In; eassumption. }
  destruct (findClosestApproach_total H1 H2) as ([ca|] & ->); simpl; [|eauto].
  destruct (_ <? _)%num; eauto.
Qed.

(** ** What a returned closest approach carries *)

Lemma for_each_Ok_body {S : Type} (body : S -> nat -> result S) (ks : list nat) (s t : S) :
  for_each ks body s = Ok t ->
  forall k, In k ks -> exists u u', body u k = Ok u'.
Proof.
  revert s. induction ks as [|k0 ks IH]; intros s Hrun k Hin; [destruct Hin|].
  simpl in Hrun. destruct (body s k0) as [s'|] eqn:Hb; [|discriminate].
  destruct Hin as [<- | Hin]; [eauto|]. eapply IH; eassumption.
Qed.

Lemma search_body_Ok (a b : Satellite) (s s' : Search) (k : nat) :
  search_body a b s k = Ok s' ->
  exists o1 o2,
    propagateSatellitePosition a (minutesAhead_of k) = Ok o1 /\
    propagateSatellitePosition b (minutesAhead_of k) = Ok o2.
Proof.
  unfold search_body.
  destruct (propagateSatellitePosition a _) as [o1|]; [|discriminate]. simpl.
  destruct (propagateSatellitePosition b _) as [o2|]; [|discriminate]. eauto.
Qed.

Lemma minutesAhead_of_eq (k : nat) :
  minutesAhead_of k = Fin (inject_Z (Z.of_nat k) / 30 * 30).
Proof. reflexivity. Qed.

Lemma minutesAhead_of_range (k : nat) :
  (k <= 30)%nat ->
  (Fin 0 <=? minutesAhead_of k)%num = true /\ (minutesAhead_of k <=? Fin 30)%num = true.
Proof.
  intros Hk. rewrite minutesAhead_of_eq. simpl.
  assert (H0 : (0 <= inject_Z (Z.of_nat k))%Q).
  { change 0%Q with (inject_Z 0). rewrite <- Zle_Qle. lia. }
  assert (H30 : (inject_Z (Z.of_nat k) <= 30)%Q).
  { change 30%Q with (inject_Z 30). rewrite <- Zle_Qle. lia. }
  assert (E : (inject_Z (Z.of_nat k) / 30 * 30 == inject_Z (Z.of_nat k))%Q) by (field; discriminate).
  split; apply Qle_bool_iff; rewrite E; assumption.
Qed.

(** A returned closest approach is the state of the search after the step
    [k <= 30] of its time offset. *)
Lemma findClosestApproach_Some (a b : Satellite) (ca : ClosestApproach) :
  findClosestApproach a b = Ok (Some ca) ->
  exists k, (k <= 30)%nat /\
            timeToClosestApproach ca = Some (minutesAhead_of k) /\
            (missDistance ca <? PInf)%num = true /\
            positions ca <> None.
Proof.
  intros Hrun. unfold findClosestApproach in Hrun.
  destruct (for_each _ _ _) as [s|] eqn:Hloop; [|discriminate]. simpl in Hrun.
  pose (t1 := fun k => match propagateSatellitePosition a (minutesAhead_of k) with
                       | Ok o => o | TypeError => None end).
  pose (t2 := fun k => match propagateSatellitePosition b (minutesAhead_of k) with
                       | Ok o => o | TypeError => None end).
  assert (Hbody : forall k, (k <= TIME_STEPS)%nat -> exists o1 o2,
             propagateSatellitePosition a (minutesAhead_of k) = Ok o1 /\
             propagateSatellitePosition b (minutesAhead_of k) = Ok o2).
  { intros k Hk.
    destruct (for_each_Ok_body _ _ _ Hloop k) as (u & u' & Hu).
    - apply in_seq. lia.
    - eapply search_body_Ok; eassumption. }
  destruct (@search_loop_inv a b t1 t2) as (s0 & Hs0 & Hinv).
  - intros k Hk. subst t1. simpl. destruct (Hbody k Hk) as (o1 & o2 & -> & _). reflexivity.
  - intros k Hk. subst t2. simpl. destruct (Hbody k Hk) as (o1 & o2 & _ & ->). reflexivity.
  - rewrite Hloop in Hs0. injection Hs0 as <-.
    destruct Hinv as [[-> _] | (k & a0 & b0 & Hk & _ & _ & _ & Hf & Ht & Hp & _)].
    + simpl in Hrun. discriminate.
    + rewrite (ltb_PInf_not_Infinity _ Hf) in Hrun. injection Hrun as <-. simpl.
      exists k. unfold TIME_STEPS in Hk. repeat split; try assumption; try lia.
      rewrite Hp. discriminate.
Qed.

(** ** Sorting by time to closest approach *)

Lemma sort_insert_perm {A : Type} (cmp : A -> A -> number) (a : A) (l : list A) :
  Permutation (a :: l) (sort_insert cmp a l).
Proof.
  induction l as [|b l IH]; cbn [sort_insert]; [reflexivity|].
  destruct (cmp a b >? Fin 0)%num; [|reflexivity].
  rewrite perm_swap. now apply perm_skip.
Qed.

Lemma Array_sort_perm {A : Type} (cmp : A -> A -> number) (l : list A) :
  Permutation l (Array_sort cmp l).
Proof.
  induction l as [|a l IH]; simpl; [reflexivity|].
  rewrite <- sort_insert_perm. now apply perm_skip.
Qed.

Lemma by_time_gt (a b : Conjunction) :
  finite_time a -> finite_time b ->
  (by_time a b >? Fin 0)%num = (time_of b <? time_of a)%num.
Proof.
  intros (qa & Ha) (qb & Hb). unfold by_time. fold (time_of a) (time_of b).
  rewrite Ha, Hb. unfold Num.gtb. simpl.
  destruct (Num.Qlt_bool qb qa) eqn:E; num_order.
Qed.

Lemma time_le_trans (a b c : Conjunction) : time_le a b -> time_le b c -> time_le a c.
Proof. unfold time_le. apply leb_trans. Qed.

Lemma sort_insert_sorted (a : Conjunction) (l : list Conjunction) :
  finite_time a -> Forall finite_time l ->
  StronglySorted time_le l -> StronglySorted time_le (sort_insert by_time a l).
Proof.
  intros Ha Hl Hs. induction Hs as [|b l Hs IH Hb]; cbn [sort_insert].
  - constructor; constructor.
  - inversion Hl as [|? ? Hfb Hfl]; subst.
    rewrite (by_time_gt Ha Hfb).
    destruct (time_of b <? time_of a)%num eqn:E.
    + constructor; [now apply IH|].
      eapply Permutation_Forall; [apply sort_insert_perm|].
      constructor; [|assumption]. now apply ltb_leb.
    + assert (Hab : time_le a b).
      { unfold time_le. destruct Ha as (qa & Ea), Hfb as (qb & Eb).
        rewrite Ea, Eb in *. num_order. }
      constructor; [now constructor|].
      constructor; [assumption|].
      eapply Forall_impl; [|exact Hb]. intros c. now apply time_le_trans.
Qed.

Lemma Array_sort_sorted (l : list Conjunction) :
  Forall finite_time l -> StronglySorted time_le (Array_sort by_time l).
Proof.
  induction 1 as [|a l Ha Hl IH]; simpl; [constructor|].
  apply sort_insert_sorted; [assumption | | assumption].
  eapply Permutation_Forall; [apply Array_sort_perm | assumption].
Qed.

Lemma sort_insert_stable (t : Q) (a : Conjunction) (l : list Conjunction) :
  finite_time a -> Forall finite_time l ->
  filter (due_at t) (sort_insert by_time a l) = filter (due_at t) (a :: l).
Proof.
  intros Ha Hl. induction Hl as [|b l Hb Hl IH]; [reflexivity|].
  cbn [sort_insert]. rewrite (by_time_gt Ha Hb).
  destruct (time_of b <? time_of a)%num eqn:E; [|reflexivity].
  cbn [filter]. rewrite IH. cbn [filter].
  destruct (due_at t a) eqn:Da, (due_at t b) eqn:Db; try reflexivity.
  exfalso. unfold due_at in Da, Db.
  destruct Ha as (qa & Ea), Hb as (qb & Eb). rewrite Ea, Eb in *.
  num_order.
Qed.

Lemma Array_sort_stable (t : Q) (l : list Conjunction) :
  Forall finite_time l ->
  filter (due_at t) (Array_sort by_time l) = filter (due_at t) l.
Proof.
  induction 1 as [|a l Ha Hl IH]; [reflexivity|].
  simpl Array_sort. rewrite sort_insert_stable; [| assumption |].
  - simpl. now rewrite IH.
  - eapply Permutation_Forall; [apply Array_sort_perm | assumption].
Qed.

Lemma firstn_incl_In {A : Type} (n : nat) (l : list A) (a : A) :
  In a (firstn n l) -> In a l.
Proof.
  revert l. induction n as [|n IH]; intros [|b l]; simpl; try tauto.
  intros [-> | H]; [now left | right; now apply IH].
Qed.

Lemma StronglySorted_firstn {A : Type} (R : A -> A -> Prop) (n : nat) (l : list A) :
  StronglySorted R l -> StronglySorted R (firstn n l).
Proof.
  intros Hs. revert n. induction Hs as [|a l Hs IH Ha]; intros [|n]; simpl; try constructor.
  - apply IH.
  - apply Forall_forall. intros b Hb. apply firstn_incl_In in Hb.
    revert b Hb. now apply Forall_forall.
Qed.

(** Every conjunction the scan pushes has a finite time offset. *)
Lemma scan_finite_time (satellites : list Satellite) (cs : list Conjunction) :
  scan satellites = Ok cs -> Forall finite_time cs.
Proof.
  intros Hrun. destruct (scan_spec _ Hrun) as (ps & HF & _).
  clear Hrun. induction HF as [|p c ps cs Hpc HF IH]; constructor; [|assumption].
  destruct Hpc as (_ & _ & _ & _ & Hf & _).
  destruct (findClosestApproach_Some _ _ Hf) as (k & _ & Ht & _).
  unfold finite_time, time_of. rewrite Ht, minutesAhead_of_eq. simpl. eauto.
Qed.

(** ** Lists *)

Lemma StronglySorted_NoDup (ps : list (nat * nat)) :
  StronglySorted visited_before ps -> NoDup ps.
Proof.
  induction 1 as [|p ps Hs IH Hp]; constructor; [|assumption].
  intros Hin. rewrite Forall_forall in Hp. specialize (Hp p Hin).
  unfold visited_before in Hp. lia.
Qed.

Lemma NoDup_firstn {A : Type} (n : nat) (l : list A) : NoDup l -> NoDup (firstn n l).
Proof.
  intros Hl. revert n. induction Hl as [|a l Ha Hl IH]; intros [|n]; simpl; try constructor.
  - intros Hin. apply Ha. eapply firstn_incl_In; eassumption.
  - apply IH.
Qed.

Lemma Forall2_firstn {A B : Type} (R : A -> B -> Prop) (n : nat) (l : list A) (l' : list B) :
  Forall2 R l l' -> Forall2 R (firstn n l) (firstn n l').
Proof.
  intros H. revert n. induction H as [|a b l l' Hab H IH]; intros [|n]; simpl; constructor.
  - assumption.
  - apply IH.
Qed.

Lemma Forall2_In_r {A B : Type} (R : A -> B -> Prop) (l : list A) (l' : list B) (b : B) :
  Forall2 R l l' -> In b l' -> exists a, In a l /\ R a b.
Proof.
  induction 1 as [|a0 b0 l l' Hab H IH]; intros Hin; [destruct Hin|].
  destruct Hin as [<- | Hin].
  - exists a0. split; [now left | assumption].
  - destruct (IH Hin) as (a & Ha & Hr). exists a. split; [now right | assumption].
Qed.

(** ** The output of a detection cycle *)

(** Every returned conjunction comes from a pair of indices [i < j] of the
    trackable objects that qualifies, no pair of indices is used twice. *)
Lemma detectConjunctions_from_pairs (satellites : list Satellite) (out : list Conjunction) :
  detectConjunctions satellites = Ok out ->
  exists ps,
    Forall2 (from_pair (filter trackable satellites)) ps out /\ NoDup ps.
Proof.
  unfold detectConjunctions. intros Hrun.
  destruct (scan satellites) as [cs|] eqn:Hscan; [|discriminate].
  assert (E : out = firstn 5 (Array_sort by_time cs)) by (cbn [bind] in Hrun; congruence).
  subst out. clear Hrun.
  destruct (scan_spec _ Hscan) as (ps & HF & HS & _).
  apply StronglySorted_NoDup in HS.
  assert (HF' : Forall2 (fun c p => from_pair (filter trackable satellites) p c) cs ps).
  { clear -HF. induction HF; constructor; assumption. }
  destruct (Permutation_Forall2 (Array_sort_perm by_time cs) HF') as (ps' & Hperm & HF'').
  exists (firstn 5 ps'). split.
  - apply Forall2_firstn. clear -HF''. induction HF''; constructor; assumption.
  - apply NoDup_firstn. eapply Permutation_NoDup; eassumption.
Qed.

Lemma detectConjunctions_qualifies (satellites : list Satellite) (out : list Conjunction)
  (c : Conjunction) :
  detectConjunctions satellites = Ok out -> In c out ->
  exists p, from_pair (filter trackable satellites) p c.
Proof.
  intros Hrun Hin.
  destruct (@detectConjunctions_from_pairs satellites out Hrun) as (ps & HF & _).
  destruct (@Forall2_In_r _ _ _ _ _ c HF Hin) as (p & _ & Hp). eauto.
Qed.

Lemma altitude_gate_sym (a b : Satellite) : altitude_gate a b = altitude_gate b a.
Proof.
  unfold altitude_gate, Num.gtb.
  destruct (ToNumber_undefined (altitude a)) as [| | |qa],
           (ToNumber_undefined (altitude b)) as [| | |qb]; try reflexivity.
  cbn [Num.ltb Num.Math_abs Num.sub]. now rewrite Qabs_Qminus.
Qed.

(** ** C3, C4, C5, C9, C10: the detection cycle *)

(** C3 (as the code has it).  A detection cycle in which no object with a
    [satrec] lacks its timestamp returns.  The list it returns is the first
    five of the pushed conjunctions (those of the qualifying pairs, in the
    order of the pairwise scan) sorted by time to closest approach: the sorted
    list is a permutation of the pushed ones, ascending in time, and
    conjunctions due at the same time keep the order of the scan; miss
    distance plays no part in the order. *)
Theorem detectConjunctions_order (satellites : list Satellite) :
  (Forall well_dated (filter trackable satellites) ->
   exists cs, scan satellites = Ok cs) /\
  (forall cs, scan satellites = Ok cs ->
     (forall c, In c cs <-> exists p, from_pair (filter trackable satellites) p c) /\
     detectConjunctions satellites = Ok (firstn 5 (Array_sort by_time cs)) /\
     Permutation cs (Array_sort by_time cs) /\
     StronglySorted time_le (Array_sort by_time cs) /\
     (forall t, filter (due_at t) (Array_sort by_time cs) = filter (due_at t) cs) /\
     StronglySorted time_le (firstn 5 (Array_sort by_time cs)) /\
     (List.length (firstn 5 (Array_sort by_time cs)) <= 5)%nat).
Proof.
  split; [apply scan_total|].
  intros cs Hscan.
  pose proof (scan_finite_time _ Hscan) as Hfin.
  pose proof (Array_sort_sorted Hfin) as Hsorted.
  repeat split.
  - intros Hin. destruct (scan_spec _ Hscan) as (ps & HF & _).
    destruct (@Forall2_In_r _ _ _ _ _ c HF Hin) as (p & _ & Hp). eauto.
  - intros (p & Hp). destruct (scan_spec _ Hscan) as (ps & _ & _ & HC). eauto.
  - unfold detectConjunctions. rewrite Hscan. reflexivity.
  - apply Array_sort_perm.
  - assumption.
  - intros t. now apply Array_sort_stable.
  - now apply StronglySorted_firstn.
  - apply firstn_le_length.
Qed.

(** C4.  A pair of objects whose altitudes differ by more than 100 km is
    rejected at once by the inner loop (nothing is pushed, no search is run),
    and no returned conjunction joins two such objects, in either order. *)
Theorem altitude_gate_excludes :
  (forall l i j a b cs,
      nth_error l i = Some a -> nth_error l j = Some b ->
      (Num.Math_abs (ToNumber_undefined (altitude a) - ToNumber_undefined (altitude b))
       >? Fin 100)%num = true ->
      pair_body l i cs j = Ok cs) /\
  (forall satellites out a b,
      detectConjunctions satellites = Ok out ->
      (Num.Math_abs (ToNumber_undefined (altitude a) - ToNumber_undefined (altitude b))
       >? Fin 100)%num = true ->
      forall c, In c out ->
                ~ (sat1 c = a /\ sat2 c = b) /\ ~ (sat1 c = b /\ sat2 c = a)).
Proof.
  split.
  - intros l i j a b cs Ha Hb Hg. unfold pair_body. now rewrite Ha, Hb, Hg.
  - intros satellites out a b Hrun Hg c Hin.
    fold (altitude_gate a b) in Hg.
    destruct (@detectConjunctions_qualifies satellites out c Hrun Hin) as (p & _ & _ & _ & Hgate & _).
    split; intros [<- <-]; [|rewrite altitude_gate_sym in Hg]; congruence.
Qed.

(** C5.  Every returned conjunction carries the closest approach found for its
    two objects, with a miss distance below 1.0 km and a time offset between
    0 and 30 minutes; and a pair whose closest approach is not below 1.0 km
    pushes nothing. *)
Theorem detectConjunctions_threshold_horizon :
  (forall satellites out c,
      detectConjunctions satellites = Ok out -> In c out ->
      findClosestApproach (sat1 c) (sat2 c) = Ok (Some (closest c)) /\
      (missDistance (closest c) <? Fin 1)%num = true /\
      exists t, timeToClosestApproach (closest c) = Some t /\
                (Fin 0 <=? t)%num = true /\ (t <=? Fin 30)%num = true) /\
  (forall l i j a b ca cs,
      nth_error l i = Some a -> nth_error l j = Some b ->
      findClosestApproach a b = Ok (Some ca) ->
      (missDistance ca <? Fin 1)%num = false ->
      pair_body l i cs j = Ok cs).
Proof.
  split.
  - intros satellites out c Hrun Hin.
    destruct (@detectConjunctions_qualifies satellites out c Hrun Hin) as (p & _ & _ & _ & _ & Hf & Hm & _).
    repeat split; try assumption.
    destruct (findClosestApproach_Some _ _ Hf) as (k & Hk & Ht & _).
    exists (minutesAhead_of k). split; [assumption|].
    now apply minutesAhead_of_range.
  - intros l i j a b ca cs Ha Hb Hf Hm. unfold pair_body. rewrite Ha, Hb.
    destruct (_ >? _)%num; [reflexivity|].
    rewrite Hf. cbn [bind]. unfold HIGH_RISK_THRESHOLD_KM. now rewrite Hm.
Qed.

(** C9 (as the code has it).  An object that has neither a [satrec] nor a
    truthy altitude (a missing, zero or NaN altitude) is dropped before the
    pairwise loop: the cycle ends as it does without the object, with the
    same list or the same exception, and no returned conjunction has an
    object that fails this test. *)
Theorem untrackable_object_excluded :
  (forall s l1 l2,
      satrec s = None -> truthy_prop (altitude s) = false ->
      detectConjunctions (l1 ++ s :: l2) = detectConjunctions (l1 ++ l2)) /\
  (forall satellites out c,
      detectConjunctions satellites = Ok out -> In c out ->
      (defined (satrec (sat1 c)) || truthy_prop (altitude (sat1 c))) = true /\
      (defined (satrec (sat2 c)) || truthy_prop (altitude (sat2 c))) = true).
Proof.
  split.
  - intros s l1 l2 Hs Ha. unfold detectConjunctions, scan.
    assert (E : filter trackable (l1 ++ s :: l2) = filter trackable (l1 ++ l2)).
    { rewrite !filter_app. simpl. unfold trackable at 2. now rewrite Hs, Ha. }
    now rewrite E.
  - intros satellites out c Hrun Hin.
    destruct (@detectConjunctions_qualifies satellites out c Hrun Hin) as (p & _ & H1 & H2 & _).
    apply nth_error_In in H1, H2. apply filter_In in H1, H2.
    split; [apply H1 | apply H2].
Qed.




(** ** C6: the impact assessor *)

Lemma identifyAffectedSatellites_eq (debris : list Fragment) (allSatellites : list Satellite) :
  identifyAffectedSatellites debris allSatellites
  = map impact (filter (inDebrisZone debris) allSatellites).
Proof.
  induction allSatellites as [|sat rest IH]; simpl; [reflexivity|].
  destruct (inDebrisZone debris sat); simpl; now rewrite IH.
Qed.

Lemma inDebrisZone_iff (debris : list Fragment) (sat : Satellite) :
  inDebrisZone debris sat = true <->
  exists frag sp fp,
    In frag debris /\ sat_position sat = Some sp /\ frag_position frag = Some fp /\
    (calculateDistance3D sp fp <? Fin 100)%num = true.
Proof.
  unfold inDebrisZone. rewrite existsb_exists. split.
  - intros (frag & Hin & H).
    destruct (sat_position sat) as [sp|]; [|discriminate].
    destruct (frag_position frag) as [fp|] eqn:Ef; [|discriminate].
    exists frag, sp, fp. auto.
  - intros (frag & sp & fp & Hin & -> & Hf & H).
    exists frag. rewrite Hf. auto.
Qed.

(** The distance of a point with finite coordinates to itself is zero. *)
Lemma calculateDistance3D_self (qx qy qz : Q) :
  let p := {| x := Fin qx; y := Fin qy; z := Fin qz |} in
  calculateDistance3D p p = Fin 0.
Proof.
  unfold calculateDistance3D. cbn [x y z Num.sub Num.mul Num.add Math_sqrt].
  assert (E : Qeq_bool ((qx - qx) * (qx - qx) + (qy - qy) * (qy - qy)
                        + (qz - qz) * (qz - qz)) 0 = true).
  { apply Qeq_bool_iff. ring. }
  now rewrite E.
Qed.

(** C6.  The assessor returns, in catalog order, one record for each object
    that has a position less than 100 km (Euclidean distance) from the
    position of at least one fragment, with risk level ELEVATED and the
    reason "In debris field path".  An object at the very position of a
    fragment is flagged, an object 200 km from every fragment is not, and an
    object without a position is left out; no input makes the assessor fail. *)
Theorem identifyAffectedSatellites_spec (debris : list Fragment)
  (allSatellites : list Satellite) :
  identifyAffectedSatellites debris allSatellites
  = map (fun sat => {| satellite := sat;
                       impact_riskLevel := ELEVATED;
                       reason := "In debris field path" |})
        (filter (inDebrisZone debris) allSatellites) /\
  (forall sat,
      inDebrisZone debris sat = true <->
      exists frag sp fp,
        In frag debris /\ sat_position sat = Some sp /\ frag_position frag = Some fp /\
        (calculateDistance3D sp fp <? Fin 100)%num = true) /\
  (forall sat frag qx qy qz,
      In sat allSatellites -> In frag debris ->
      sat_position sat = Some {| x := Fin qx; y := Fin qy; z := Fin qz |} ->
      frag_position frag = Some {| x := Fin qx; y := Fin qy; z := Fin qz |} ->
      In {| satellite := sat; impact_riskLevel := ELEVATED; reason := "In debris field path" |}
         (identifyAffectedSatellites debris allSatellites)) /\
  (forall sat,
      (forall frag sp fp,
          In frag debris -> sat_position sat = Some sp -> frag_position frag = Some fp ->
          calculateDistance3D sp fp = Fin 200) ->
      forall r, In r (identifyAffectedSatellites debris allSatellites) -> satellite r <> sat) /\
  (forall sat,
      sat_position sat = None ->
      forall r, In r (identifyAffectedSatellites debris allSatellites) -> satellite r <> sat).
Proof.
  rewrite identifyAffectedSatellites_eq. fold impact.
  split; [reflexivity|]. split; [apply inDebrisZone_iff|]. repeat split.
  - intros sat frag qx qy qz Hsat Hfrag Hsp Hfp.
    change (In (impact sat) (map impact (filter (inDebrisZone debris) allSatellites))).
    apply in_map. apply filter_In. split; [assumption|].
    apply inDebrisZone_iff. do 3 eexists. repeat split; try eassumption.
    now rewrite calculateDistance3D_self.
  - intros sat Hfar r Hr <-.
    apply in_map_iff in Hr. destruct Hr as (sat' & <- & Hin).
    apply filter_In in Hin. destruct Hin as [_ Hz]. simpl in Hz.
    apply inDebrisZone_iff in Hz. destruct Hz as (frag & sp & fp & Hfrag & Hsp & Hfp & Hd).
    rewrite (Hfar frag sp fp Hfrag Hsp Hfp) in Hd. discriminate.
  - intros sat Hnone r Hr <-.
    apply in_map_iff in Hr. destruct Hr as (sat' & <- & Hin).
    apply filter_In in Hin. destruct Hin as [_ Hz]. simpl in Hz.
    apply inDebrisZone_iff in Hz. destruct Hz as (frag & sp & fp & _ & Hsp & _).
    simpl in Hnone. congruence.
Qed.

(** ** C7, C8: the debris cascade *)

Lemma of_nat_ltb_of_Z (i : nat) (n : Z) :
  (Num.of_nat i <? Num.of_Z n)%num = (Z.of_nat i <? n)%Z.
Proof.
  unfold Num.of_nat, Num.of_Z. cbn [Num.ltb].
  destruct (Z.of_nat i <? n)%Z eqn:E.
  - apply Qlt_bool_iff. rewrite <- Zlt_Qlt. now apply Z.ltb_lt.
  - apply Qlt_bool_false_iff. rewrite <- Zle_Qle. apply Z.ltb_ge in E. lia.
Qed.

Lemma debris_loop_spec (conjunction : Conjunction) (ps : Positions) (n : nat) :
  positions (closest conjunction) = Some ps ->
  forall m fuel i debris rnd,
    (i + m = n)%nat -> (m <= fuel)%nat ->
    debris_loop fuel conjunction (Num.of_Z (Z.of_nat n)) i debris rnd
    = Some (Ok (debris ++ map (fun k => fragment_of conjunction ps (draws rnd)
                                                    (drawn rnd + 4 * k))
                              (seq 0 m),
                {| draws := draws rnd; drawn := drawn rnd + 4 * m |})).
Proof.
  intros Hps. induction m as [|m IH]; intros fuel i debris rnd Hi Hfuel.
  - assert (E : (Num.of_nat i <? Num.of_Z (Z.of_nat n))%num = false).
    { rewrite of_nat_ltb_of_Z. apply Z.ltb_ge. lia. }
    destruct fuel; cbn [debris_loop]; rewrite E; cbn [seq map]; rewrite app_nil_r;
      destruct rnd as [d k]; cbn [draws drawn]; now rewrite Nat.mul_0_r, Nat.add_0_r.
  - assert (E : (Num.of_nat i <? Num.of_Z (Z.of_nat n))%num = true).
    { rewrite of_nat_ltb_of_Z. apply Z.ltb_lt. lia. }
    destruct fuel as [|fuel]; [lia|].
    cbn [debris_loop]. rewrite E. unfold Math_random. cbn [draws drawn].
    rewrite Hps. rewrite IH by lia. cbn [draws drawn].
    f_equal. f_equal. f_equal.
    + rewrite <- app_assoc. f_equal. cbn [seq map app].
      f_equal.
      * unfold fragment_of. now rewrite Nat.mul_0_r, Nat.add_0_r.
      * rewrite <- seq_shift, map_map. apply map_ext. intros k.
        f_equal. lia.
    + f_equal. lia.
Qed.

Lemma fragmentCount_of_finite (conjunction : Conjunction) (q : Q) :
  relativeVelocity (closest conjunction) = Fin q ->
  fragmentCount_of conjunction = Num.of_Z (Qfloor (50 + q * 10)).
Proof. intros H. unfold fragmentCount_of. now rewrite H. Qed.

Lemma fragment_floor_nonneg (q : Q) : (0 <= q)%Q -> (0 <= Qfloor (50 + q * 10))%Z.
Proof.
  intros Hq. change 0%Z with (Qfloor 0). apply Qfloor_resp_le. lra.
Qed.

(** The run of the cascade for a finite, non-negative relative velocity. *)
Lemma simulateDebrisCascade_run (conjunction : Conjunction) (q : Q) (ps : Positions)
  (fuel : nat) (rnd : RandomSource) :
  relativeVelocity (closest conjunction) = Fin q -> (0 <= q)%Q ->
  positions (closest conjunction) = Some ps ->
  (Z.to_nat (Qfloor (50 + q * 10)) <= fuel)%nat ->
  simulateDebrisCascade fuel rnd conjunction
  = Some (Ok (map (fun k => fragment_of conjunction ps (draws rnd) (drawn rnd + 4 * k))
                  (seq 0 (Z.to_nat (Qfloor (50 + q * 10)))),
              {| draws := draws rnd;
                 drawn := drawn rnd + 4 * Z.to_nat (Qfloor (50 + q * 10)) |})).
Proof.
  intros Hrv Hq Hps Hfuel. unfold simulateDebrisCascade.
  rewrite (fragmentCount_of_finite _ Hrv).
  rewrite <- (Z2Nat.id (Qfloor (50 + q * 10))) at 1 by now apply fragment_floor_nonneg.
  rewrite (@debris_loop_spec conjunction ps _ Hps (Z.to_nat (Qfloor (50 + q * 10))))
    by (assumption || lia).
  reflexivity.
Qed.

(** C7.  For a conjunction with a finite relative velocity [rv >= 0] (and the
    positions every detected conjunction has), the cascade, given fuel for its
    loop, returns with exactly [floor(50 + rv * 10)] fragments whatever the
    random source; with [rv = 10] they are 150. *)
Theorem simulateDebrisCascade_count (conjunction : Conjunction) (q : Q) (ps : Positions) :
  relativeVelocity (closest conjunction) = Fin q -> (0 <= q)%Q ->
  positions (closest conjunction) = Some ps ->
  fragmentCount_of conjunction = Fin (inject_Z (Qfloor (50 + q * 10))) /\
  forall fuel rnd,
    (Z.to_nat (Qfloor (50 + q * 10)) <= fuel)%nat ->
    exists debris rnd',
      simulateDebrisCascade fuel rnd conjunction = Some (Ok (debris, rnd')) /\
      Z.of_nat (List.length debris) = Qfloor (50 + q * 10) /\
      (q == 10 -> List.length debris = 150%nat).
Proof.
  intros Hrv Hq Hps. split; [now apply fragmentCount_of_finite|].
  intros fuel rnd Hfuel.
  rewrite (@simulateDebrisCascade_run conjunction q ps fuel rnd Hrv Hq Hps Hfuel).
  do 2 eexists. split; [reflexivity|].
  rewrite length_map, length_seq. split.
  - apply Z2Nat.id. now apply fragment_floor_nonneg.
  - intros E. assert (E' : (50 + q * 10 == 150)%Q) by (rewrite E; reflexivity).
    now rewrite (Qfloor_comp _ _ E').
Qed.

(** The bounds of a perturbation and of a size, for a draw in [0, 1). *)
Lemma perturbation_bound (r q : Q) :
  (0 <= r < 1)%Q -> (0 <= q)%Q ->
  (- (15 # 100) * q <= (r - (1 # 2)) * q * (3 # 10) <= (15 # 100) * q)%Q.
Proof.
  intros [Hr0 Hr1] Hq.
  assert (H1 : (0 <= r * q)%Q) by now apply Qmult_le_0_compat.
  assert (H2 : (0 <= (1 - r) * q)%Q) by (apply Qmult_le_0_compat; lra).
  split; lra.
Qed.

(** C8.  Under the same conditions and with draws in [0, 1), the cascade
    returns [floor(50 + 10 rv)] fragments, at least 50, and the fragment of
    every turn [i] below that number starts at the closest-approach position
    of the first object, has on each axis the velocity perturbation
    [(rand - 0.5) * rv * 0.3] of its own draw, which lies between
    [-0.15 * rv] and [0.15 * rv], and has the size [rand * 0.5] of a fourth
    draw, which lies between 0 and 0.5. *)
Theorem simulateDebrisCascade_fragments (conjunction : Conjunction) (q : Q)
  (ps : Positions) (fuel : nat) (rnd : RandomSource) :
  relativeVelocity (closest conjunction) = Fin q -> (0 <= q)%Q ->
  positions (closest conjunction) = Some ps ->
  (forall k, 0 <= draws rnd k < 1)%Q ->
  (Z.to_nat (Qfloor (50 + q * 10)) <= fuel)%nat ->
  exists debris rnd',
    simulateDebrisCascade fuel rnd conjunction = Some (Ok (debris, rnd')) /\
    List.length debris = Z.to_nat (Qfloor (50 + q * 10)) /\
    (50 <= List.length debris)%nat /\
    forall i, (i < List.length debris)%nat ->
      exists f,
        nth_error debris i = Some f /\
        let r := fun k => draws rnd (drawn rnd + 4 * i + k) in
        frag_position f = Some (pos_sat1 ps) /\
        frag_velocity f =
          {| x := ((Fin (r 0%nat) - Fin (1 # 2)) * Fin q * Fin (3 # 10))%num;
             y := ((Fin (r 1%nat) - Fin (1 # 2)) * Fin q * Fin (3 # 10))%num;
             z := ((Fin (r 2%nat) - Fin (1 # 2)) * Fin q * Fin (3 # 10))%num |} /\
        size f = (Fin (r 3%nat) * Fin (1 # 2))%num /\
        exists vx vy vz sz,
          frag_velocity f = {| x := Fin vx; y := Fin vy; z := Fin vz |} /\
          size f = Fin sz /\
          (- (15 # 100) * q <= vx <= (15 # 100) * q)%Q /\
          (- (15 # 100) * q <= vy <= (15 # 100) * q)%Q /\
          (- (15 # 100) * q <= vz <= (15 # 100) * q)%Q /\
          (0 <= sz <= 1 # 2)%Q.
Proof.
  intros Hrv Hq Hps Hdraws Hfuel.
  rewrite (@simulateDebrisCascade_run conjunction q ps fuel rnd Hrv Hq Hps Hfuel).
  do 2 eexists. split; [reflexivity|].
  rewrite length_map, length_seq.
  split; [reflexivity|].
  split.
  { pose proof (Qfloor_resp_le 50 (50 + q * 10) ltac:(lra)) as H50.
    change (Qfloor 50) with 50%Z in H50. lia. }
  intros i Hi.
  exists (fragment_of conjunction ps (draws rnd) (drawn rnd + 4 * i)).
  split.
  { rewrite nth_error_map, nth_error_seq.
    destruct (Nat.ltb_spec i (Z.to_nat (Qfloor (50 + q * 10)))); [reflexivity | lia]. }
  intros r.
  unfold fragment_of. rewrite Hrv. cbn [frag_position frag_velocity size].
  subst r. cbn beta.
  replace (drawn rnd + 4 * i + 0)%nat with (drawn rnd + 4 * i)%nat by lia.
  replace (drawn rnd + 4 * i + 1)%nat with (S (drawn rnd + 4 * i)) by lia.
  replace (drawn rnd + 4 * i + 2)%nat with (S (S (drawn rnd + 4 * i))) by lia.
  replace (drawn rnd + 4 * i + 3)%nat with (S (S (S (drawn rnd + 4 * i)))) by lia.
  generalize (drawn rnd + 4 * i)%nat. intros b.
  repeat split.
  cbn [Num.sub Num.mul].
  pose proof (Hdraws b) as H0.
  pose proof (Hdraws (S b)) as H1.
  pose proof (Hdraws (S (S b))) as H2.
  pose proof (Hdraws (S (S (S b)))) as H3.
  do 4 eexists. split; [reflexivity|]. split; [reflexivity|].
  repeat split; try (now apply perturbation_bound); lra.
Qed.

(** * Further properties *)

Unset Implicit Arguments.

(** ** Symmetry of the search *)

Lemma num_eq_refl (a : number) : num_eq a a.
Proof. destruct a; simpl; auto. reflexivity. Qed.

Lemma num_eq_add (a a' b b' : number) :
  num_eq a a' -> num_eq b b' -> num_eq (a + b)%num (a' + b')%num.
Proof.
  destruct a, a', b, b'; simpl; try tauto. intros E1 E2. now rewrite E1, E2.
Qed.

Lemma sub_square_sym (a b : number) :
  num_eq ((a - b) * (a - b))%num ((b - a) * (b - a))%num.
Proof. destruct a, b; simpl; auto. ring. Qed.

Lemma Math_sqrt_num_eq (a b : number) : num_eq a b -> Math_sqrt a = Math_sqrt b.
Proof.
  destruct a as [| | |p], b as [| | |q]; simpl; try tauto. intros E.
  destruct (Qeq_bool p 0) eqn:Ep, (Qeq_bool q 0) eqn:Eq; Qbool;
    try reflexivity; try (exfalso; rewrite E in *; tauto).
  destruct (Qle_bool 0 p) eqn:Lp, (Qle_bool 0 q) eqn:Lq; Qbool;
    try reflexivity; try (exfalso; lra).
  now rewrite (Qred_complete _ _ E).
Qed.

Lemma norm_sym (ax ay az bx by_ bz : number) :
  Math_sqrt ((ax - bx) * (ax - bx) + (ay - by_) * (ay - by_) + (az - bz) * (az - bz))%num
  = Math_sqrt ((bx - ax) * (bx - ax) + (by_ - ay) * (by_ - ay) + (bz - az) * (bz - az))%num.
Proof.
  apply Math_sqrt_num_eq. repeat apply num_eq_add; apply sub_square_sym.
Qed.

Lemma distance_sym (p q : Vec3) : calculateDistance3D p q = calculateDistance3D q p.
Proof. apply norm_sym. Qed.

Lemma relative_velocity_sym (v w : Vec3) :
  calculateRelativeVelocity v w = calculateRelativeVelocity w v.
Proof. apply norm_sym. Qed.

(** X1.  The distance of two positions and the relative velocity of two
    velocity vectors do not depend on the order of the two. *)
Theorem calculateDistance3D_sym (p q : Vec3) :
  calculateDistance3D p q = calculateDistance3D q p /\
  calculateRelativeVelocity p q = calculateRelativeVelocity q p.
Proof. split; [apply distance_sym | apply relative_velocity_sym]. Qed.

Lemma search_body_swap (a b : Satellite) (s : Search) (k : nat) :
  search_body b a (swap_search s) k
  = match search_body a b s k with
    | Ok s' => Ok (swap_search s')
    | TypeError => TypeError
    end.
Proof.
  unfold search_body.
  destruct (propagateSatellitePosition a (minutesAhead_of k)) as [[pa|]|],
           (propagateSatellitePosition b (minutesAhead_of k)) as [[pb|]|];
    cbn [bind]; try reflexivity.
  rewrite (distance_sym (position pb) (position pa)).
  cbn [swap_search minDistance closestRelVel].
  destruct (calculateDistance3D (position pa) (position pb) <? minDistance s)%num;
    [|reflexivity].
  unfold swap_search. cbn [minDistance closestTime closestRelVel closestPositions option_map].
  unfold swap_positions. cbn [pos_sat1 pos_sat2].
  destruct (velocity pa) as [va|], (velocity pb) as [vb|]; try reflexivity.
  now rewrite (relative_velocity_sym vb va).
Qed.

Lemma for_each_swap (a b : Satellite) (ks : list nat) (s : Search) :
  for_each ks (search_body b a) (swap_search s)
  = match for_each ks (search_body a b) s with
    | Ok s' => Ok (swap_search s')
    | TypeError => TypeError
    end.
Proof.
  revert s. induction ks as [|k ks IH]; intros s; [reflexivity|].
  cbn [for_each]. rewrite search_body_swap.
  destruct (search_body a b s k) as [s'|]; cbn [bind]; [apply IH | reflexivity].
Qed.

(** X2.  Exchanging the two objects of a search exchanges the two positions
    of the result and changes nothing else: the same miss distance, time
    offset and relative velocity, the same [null], the same exception. *)
Theorem findClosestApproach_swap (a b : Satellite) :
  findClosestApproach b a
  = match findClosestApproach a b with
    | Ok (Some ca) => Ok (Some (swap_approach ca))
    | Ok None => Ok None
    | TypeError => TypeError
    end.
Proof.
  unfold findClosestApproach.
  change search_start with (swap_search search_start) at 1.
  rewrite for_each_swap.
  destruct (for_each _ (search_body a b) search_start) as [s|]; cbn [bind]; [|reflexivity].
  cbn [swap_search minDistance].
  destruct (Num.is_Infinity (minDistance s)); reflexivity.
Qed.

(** ** What the resolver gives *)

Lemma well_dated_iff (sat : Satellite) : well_dated sat <-> undated sat = false.
Proof.
  unfold well_dated, undated.
  destruct (defined (satrec sat)), (defined (sat_timestamp sat)); simpl; split; intros H;
    try reflexivity; try discriminate; try (specialize (H eq_refl); discriminate); auto.
Qed.

Lemma undated_throws (sat : Satellite) (m : number) :
  undated sat = true -> propagateSatellitePosition sat m = TypeError.
Proof.
  unfold undated, propagateSatellitePosition, propagateSatellite.
  destruct (satrec sat); simpl; [|discriminate].
  destruct (sat_timestamp sat); simpl; [discriminate | reflexivity].
Qed.

Lemma unresolvable_null (sat : Satellite) (m : number) :
  resolvable sat = false -> propagateSatellitePosition sat m = Ok None.
Proof.
  unfold resolvable, propagateSatellitePosition.
  destruct (defined (satrec sat)); simpl; [discriminate|]. now intros ->.
Qed.

Lemma resolved_resolvable (sat : Satellite) (m : number) (st : State) :
  propagateSatellitePosition sat m = Ok (Some st) -> resolvable sat = true.
Proof.
  intros H. destruct (resolvable sat) eqn:E; [reflexivity|].
  rewrite (unresolvable_null _ _ E) in H. discriminate.
Qed.

(** A returned closest approach is the one of a step at which both objects
    resolve. *)
Lemma findClosestApproach_Some_step (a b : Satellite) (ca : ClosestApproach) :
  findClosestApproach a b = Ok (Some ca) ->
  exists k sa sb,
    (k <= 30)%nat /\
    propagateSatellitePosition a (minutesAhead_of k) = Ok (Some sa) /\
    propagateSatellitePosition b (minutesAhead_of k) = Ok (Some sb) /\
    missDistance ca = calculateDistance3D (position sa) (position sb) /\
    (missDistance ca <? PInf)%num = true /\
    timeToClosestApproach ca = Some (minutesAhead_of k) /\
    positions ca = Some {| pos_sat1 := position sa; pos_sat2 := position sb |}.
Proof.
  intros Hrun. unfold findClosestApproach in Hrun.
  destruct (for_each _ _ _) as [s|] eqn:Hloop; [|discriminate]. simpl in Hrun.
  assert (Hbody : forall k, (k <= TIME_STEPS)%nat -> exists o1 o2,
             propagateSatellitePosition a (minutesAhead_of k) = Ok o1 /\
             propagateSatellitePosition b (minutesAhead_of k) = Ok o2).
  { intros k Hk.
    destruct (for_each_Ok_body _ _ _ Hloop k) as (u & u' & Hu).
    - apply in_seq. lia.
    - eapply search_body_Ok; eassumption. }
  assert (Hres : forall c k, (k <= TIME_STEPS)%nat ->
             (exists o, propagateSatellitePosition c (minutesAhead_of k) = Ok o) ->
             propagateSatellitePosition c (minutesAhead_of k) = Ok (resolved c k)).
  { intros c k _ (o & Ho). unfold resolved. now rewrite Ho. }
  destruct (@search_loop_inv a b (resolved a) (resolved b)) as (s0 & Hs0 & Hinv).
  - intros k Hk. apply Hres; [assumption|]. destruct (Hbody k Hk) as (o1 & _ & H1 & _). eauto.
  - intros k Hk. apply Hres; [assumption|]. destruct (Hbody k Hk) as (_ & o2 & _ & H2). eauto.
  - rewrite Hloop in Hs0. injection Hs0 as <-.
    destruct Hinv as [[-> _] | (k & sa & sb & Hk & Ha & Hb & Hd & Hf & Ht & Hp & _)].
    + simpl in Hrun. discriminate.
    + rewrite (ltb_PInf_not_Infinity _ Hf) in Hrun. injection Hrun as <-. simpl.
      exists k, sa, sb. unfold TIME_STEPS in Hk.
      assert (Hk' : (k <= TIME_STEPS)%nat) by (unfold TIME_STEPS; lia).
      destruct (Hbody k Hk') as (o1 & o2 & H1 & H2).
      unfold resolved in Ha, Hb. rewrite H1 in Ha. rewrite H2 in Hb. subst o1 o2.
      repeat split; try assumption; lia.
Qed.

(** X3.  An object without [satrec] that lacks its latitude or its longitude
    is never resolved, whatever its altitude; and both objects of a returned
    conjunction are resolvable: they have a [satrec], or a truthy altitude
    with a latitude and a longitude. *)
Theorem detectConjunctions_objects_resolvable :
  (forall sat m,
      satrec sat = None -> (latitude sat = None \/ longitude sat = None) ->
      propagateSatellitePosition sat m = Ok None) /\
  (forall satellites out c,
      detectConjunctions satellites = Ok out -> In c out ->
      (defined (satrec (sat1 c))
       || (truthy_prop (altitude (sat1 c)) && defined (latitude (sat1 c))
           && defined (longitude (sat1 c)))) = true /\
      (defined (satrec (sat2 c))
       || (truthy_prop (altitude (sat2 c)) && defined (latitude (sat2 c))
           && defined (longitude (sat2 c)))) = true).
Proof.
  split.
  - intros sat m Hs Hl. apply unresolvable_null. unfold resolvable. rewrite Hs. simpl.
    destruct Hl as [-> | ->]; simpl; destruct (truthy_prop (altitude sat));
      try reflexivity; simpl; apply andb_false_r.
  - intros satellites out c Hrun Hin.
    destruct (@detectConjunctions_qualifies satellites out c Hrun Hin)
      as (p & _ & _ & _ & _ & Hf & _).
    destruct (findClosestApproach_Some_step _ _ _ Hf) as (k & sa & sb & _ & Ha & Hb & _).
    split; [exact (resolved_resolvable _ _ _ Ha) | exact (resolved_resolvable _ _ _ Hb)].
Qed.

Lemma Math_sqrt_not_NInf (v : number) : Math_sqrt v <> NInf.
Proof.
  destruct v as [| | |q]; simpl; try discriminate.
  destruct (Qeq_bool q 0); [discriminate|]. destruct (Qle_bool 0 q); discriminate.
Qed.

(** X5.  A returned conjunction has a finite miss distance below 1 km and a
    risk level that is never MODERATE: it is CRITICAL below 0.1 km, HIGH from
    0.1 to below 0.5 km and ELEVATED from 0.5 km on. *)
Theorem detectConjunctions_risk_levels (satellites : list Satellite)
  (out : list Conjunction) (c : Conjunction) :
  detectConjunctions satellites = Ok out -> In c out ->
  exists q,
    missDistance (closest c) = Fin q /\ (q < 1)%Q /\
    riskLevel c <> MODERATE /\
    (riskLevel c = CRITICAL <-> (q < 1 # 10)%Q) /\
    (riskLevel c = HIGH <-> (1 # 10 <= q < 1 # 2)%Q) /\
    (riskLevel c = ELEVATED <-> (1 # 2 <= q)%Q).
Proof.
  intros Hrun Hin.
  destruct (@detectConjunctions_qualifies satellites out c Hrun Hin)
    as (p & _ & _ & _ & _ & Hf & Hm & Hr & _).
  destruct (findClosestApproach_Some_step _ _ _ Hf) as (k & sa & sb & _ & _ & _ & Hd & _).
  destruct (missDistance (closest c)) as [| | |q] eqn:E; try discriminate.
  - exfalso. symmetry in Hd. revert Hd. apply Math_sqrt_not_NInf.
  - exists q. unfold HIGH_RISK_THRESHOLD_KM in Hm. cbn [Num.ltb] in Hm.
    apply Qlt_bool_iff in Hm. split; [reflexivity|]. split; [assumption|].
    rewrite Hr. unfold getRiskLevel. cbn [Num.ltb].
    destruct (Num.Qlt_bool q (1 # 10)) eqn:E1; [|destruct (Num.Qlt_bool q (5 # 10)) eqn:E2;
      [|destruct (Num.Qlt_bool q 1) eqn:E3]]; Qbool;
      repeat split; try discriminate; try (intros; lra); try (intros; exfalso; lra);
      try (intros _; reflexivity).
Qed.

Lemma debris_loop_no_throw (conjunction : Conjunction) (ps : Positions) :
  positions (closest conjunction) = Some ps ->
  forall fuel count i debris rnd,
    debris_loop fuel conjunction count i debris rnd <> Some TypeError.
Proof.
  intros Hps. induction fuel as [|fuel IH]; intros count i debris rnd;
    cbn [debris_loop]; destruct (_ <? _)%num; try discriminate.
  unfold Math_random. rewrite Hps. apply IH.
Qed.

(** X12.  The debris cascade never throws on a conjunction that the detection
    has returned: such a conjunction carries its two positions. *)
Theorem simulateDebrisCascade_detected_no_throw (satellites : list Satellite)
  (out : list Conjunction) (c : Conjunction) :
  detectConjunctions satellites = Ok out -> In c out ->
  (exists ps, positions (closest c) = Some ps) /\
  forall fuel rnd, simulateDebrisCascade fuel rnd c <> Some TypeError.
Proof.
  intros Hrun Hin.
  destruct (@detectConjunctions_qualifies satellites out c Hrun Hin)
    as (p & _ & _ & _ & _ & Hf & _).
  destruct (findClosestApproach_Some_step _ _ _ Hf) as (k & sa & sb & _ & _ & _ & _ & _ & _ & Hp).
  split; [eauto|]. intros fuel rnd. unfold simulateDebrisCascade.
  eapply debris_loop_no_throw. eassumption.
Qed.

(** ** Exceptions of the scan *)

Lemma undated_search_throws (a b : Satellite) :
  undated a || undated b = true -> findClosestApproach a b = TypeError.
Proof.
  intros H. unfold findClosestApproach, TIME_STEPS. cbn [seq for_each].
  unfold search_body at 1.
  destruct (undated a) eqn:Ea.
  - rewrite (undated_throws a _ Ea). reflexivity.
  - simpl in H. rewrite (undated_throws b _ H).
    destruct (propagateSatellitePosition a (minutesAhead_of 0)); reflexivity.
Qed.

(** The scan has run the body of the inner loop for every pair of indices. *)
Lemma scan_Ok_pair (satellites : list Satellite) (cs : list Conjunction) (i j : nat) :
  scan satellites = Ok cs ->
  (i < j < List.length (filter trackable satellites))%nat ->
  exists u u', pair_body (filter trackable satellites) i u j = Ok u'.
Proof.
  unfold scan. intros Hrun Hij.
  destruct (for_each_Ok_body _ _ _ Hrun i) as (u & u' & Hrow).
  { apply in_seq. lia. }
  unfold row_body in Hrow.
  apply (for_each_Ok_body _ _ _ Hrow j). apply in_seq. lia.
Qed.

Lemma scan_total_pairs (satellites : list Satellite) :
  (forall i j a b,
      (i < j)%nat ->
      nth_error (filter trackable satellites) i = Some a ->
      nth_error (filter trackable satellites) j = Some b ->
      altitude_gate a b = false ->
      undated a = false /\ undated b = false) ->
  exists cs, scan satellites = Ok cs.
Proof.
  intros Hwd. unfold scan. set (l := filter trackable satellites) in *.
  destruct (@for_each_seq_inv _ (fun _ _ => True) (row_body l) (List.length l) 0%nat [])
    as (t & Ht & _); [exact I | | eauto].
  intros i cs Hi _. unfold row_body.
  destruct (@for_each_seq_inv _ (fun _ _ => True) (pair_body l i)
              (List.length l - S i) (S i) cs) as (t & Ht & _); [exact I | | eauto].
  intros j u Hj _. unfold pair_body.
  destruct (nth_error l i) as [s1|] eqn:E1.
  2:{ apply nth_error_None in E1. lia. }
  destruct (nth_error l j) as [s2|] eqn:E2.
  2:{ apply nth_error_None in E2. lia. }
  fold (altitude_gate s1 s2).
  destruct (altitude_gate s1 s2) eqn:Eg; [eauto|].
  destruct (Hwd i j s1 s2 ltac:(lia) E1 E2 Eg) as [H1 H2].
  apply well_dated_iff in H1, H2.
  destruct (findClosestApproach_total H1 H2) as ([ca|] & ->); simpl; [|eauto].
  destruct (_ <? _)%num; eauto.
Qed.

(** X4.  The detection throws exactly on account of an object that has a
    [satrec] and no timestamp, and only when that object is in a pair the
    altitude gate does not reject: if no such pair has such an object the
    cycle returns, and if one has it the cycle ends in a TypeError.  With
    fewer than two trackable objects the cycle returns the empty list. *)
Theorem detectConjunctions_exceptions (satellites : list Satellite) :
  ((forall i j a b,
       (i < j)%nat ->
       nth_error (filter trackable satellites) i = Some a ->
       nth_error (filter trackable satellites) j = Some b ->
       altitude_gate a b = false ->
       undated a = false /\ undated b = false) ->
   exists out, detectConjunctions satellites = Ok out) /\
  (forall i j a b,
      (i < j)%nat ->
      nth_error (filter trackable satellites) i = Some a ->
      nth_error (filter trackable satellites) j = Some b ->
      altitude_gate a b = false ->
      undated a || undated b = true ->
      detectConjunctions satellites = TypeError) /\
  ((List.length (filter trackable satellites) <= 1)%nat ->
   detectConjunctions satellites = Ok []).
Proof.
  split; [|split].
  - intros Hwd. destruct (scan_total_pairs satellites Hwd) as (cs & Hcs).
    unfold detectConjunctions. rewrite Hcs. cbn [bind]. eauto.
  - intros i j a b Hij Ha Hb Hg Hu. unfold detectConjunctions.
    destruct (scan satellites) as [cs|] eqn:Hscan; [exfalso | reflexivity].
    assert (Hj : (j < List.length (filter trackable satellites))%nat).
    { apply nth_error_Some. congruence. }
    destruct (scan_Ok_pair satellites cs i j Hscan ltac:(lia)) as (u & u' & Hpair).
    unfold pair_body in Hpair. rewrite Ha, Hb in Hpair.
    fold (altitude_gate a b) in Hpair. rewrite Hg in Hpair.
    rewrite (undated_search_throws a b Hu) in Hpair. discriminate.
  - intros Hlen.
    destruct (scan_total_pairs satellites) as (cs & Hcs).
    { intros i j a b Hij Ha Hb _.
      assert (Hj : (j < List.length (filter trackable satellites))%nat).
      { apply nth_error_Some. congruence. }
      lia. }
    unfold detectConjunctions. rewrite Hcs. cbn [bind].
    destruct (@scan_spec satellites cs Hcs) as (ps & HF & _).
    destruct HF as [|p c ps cs Hp HF]; [reflexivity|].
    destruct Hp as (Hlt & _). lia.
Qed.

(** ** The truncation *)

Lemma StronglySorted_app_inv {A : Type} (R : A -> A -> Prop) (l1 l2 : list A) :
  StronglySorted R (l1 ++ l2) -> forall a b, In a l1 -> In b l2 -> R a b.
Proof.
  induction l1 as [|a0 l1 IH]; intros Hs a b Ha Hb; [destruct Ha|].
  simpl in Hs. apply StronglySorted_inv in Hs. destruct Hs as [Hs Hall].
  destruct Ha as [<- | Ha]; [|now apply IH].
  rewrite Forall_forall in Hall. apply Hall. apply in_or_app. now right.
Qed.

(** X6.  Of the pushed conjunctions the cycle keeps the soonest: it returns
    [min 5 n] of the [n] pushed ones, every one it drops is due no earlier
    than every one it returns, and with at most five pushed it returns them
    all. *)
Theorem detectConjunctions_keeps_soonest (satellites : list Satellite)
  (cs : list Conjunction) :
  scan satellites = Ok cs ->
  exists out dropped,
    detectConjunctions satellites = Ok out /\
    Permutation cs (out ++ dropped) /\
    List.length out = Nat.min 5 (List.length cs) /\
    (forall c c', In c out -> In c' dropped -> time_le c c') /\
    ((List.length cs <= 5)%nat -> dropped = []).
Proof.
  intros Hscan.
  exists (firstn 5 (Array_sort by_time cs)), (skipn 5 (Array_sort by_time cs)).
  pose proof (Array_sort_perm by_time cs) as Hperm.
  repeat split.
  - unfold detectConjunctions. rewrite Hscan. reflexivity.
  - now rewrite firstn_skipn.
  - rewrite length_firstn. now rewrite (Permutation_length Hperm).
  - apply StronglySorted_app_inv. rewrite firstn_skipn.
    apply (@Array_sort_sorted cs). exact (@scan_finite_time satellites cs Hscan).
  - intros Hlen. apply skipn_all2. now rewrite <- (Permutation_length Hperm).
Qed.

(** ** An object listed twice *)

Lemma search_run_inv (a b : Satellite) (s : Search) :
  for_each (seq 0 (S TIME_STEPS)) (search_body a b) search_start = Ok s ->
  search_inv (resolved a) (resolved b) (S TIME_STEPS) s.
Proof.
  intros Hloop.
  assert (Hbody : forall k, (k <= TIME_STEPS)%nat -> exists o1 o2,
             propagateSatellitePosition a (minutesAhead_of k) = Ok o1 /\
             propagateSatellitePosition b (minutesAhead_of k) = Ok o2).
  { intros k Hk.
    destruct (for_each_Ok_body _ _ _ Hloop k) as (u & u' & Hu).
    - apply in_seq. lia.
    - eapply search_body_Ok; eassumption. }
  destruct (@search_loop_inv a b (resolved a) (resolved b)) as (s0 & Hs0 & Hinv).
  - intros k Hk. destruct (Hbody k Hk) as (o1 & _ & H1 & _). unfold resolved. now rewrite H1.
  - intros k Hk. destruct (Hbody k Hk) as (_ & o2 & _ & H2). unfold resolved. now rewrite H2.
  - rewrite Hloop in Hs0. now injection Hs0 as <-.
Qed.

(** A search that returns [null] has seen no distance below [Infinity]. *)
Lemma findClosestApproach_None_step (a b : Satellite) (k : nat) (sa sb : State) :
  findClosestApproach a b = Ok None ->
  (k <= 30)%nat ->
  propagateSatellitePosition a (minutesAhead_of k) = Ok (Some sa) ->
  propagateSatellitePosition b (minutesAhead_of k) = Ok (Some sb) ->
  (calculateDistance3D (position sa) (position sb) <? PInf)%num = false.
Proof.
  intros Hrun Hk Ha Hb. unfold findClosestApproach in Hrun.
  destruct (for_each _ _ _) as [s|] eqn:Hloop; [|discriminate]. cbn [bind] in Hrun.
  destruct (search_run_inv a b s Hloop)
    as [[-> Hnone] | (k0 & sa0 & sb0 & _ & _ & _ & _ & Hf & _)].
  - apply (Hnone k); [unfold TIME_STEPS; lia | |]; unfold resolved; [now rewrite Ha | now rewrite Hb].
  - rewrite (ltb_PInf_not_Infinity _ Hf) in Hrun. discriminate.
Qed.

Lemma square_self (c : number) :
  num_eq ((c - c) * (c - c))%num (Fin 0) \/ ((c - c) * (c - c))%num = NaN.
Proof. destruct c; simpl; auto. left. ring. Qed.

Lemma add_NaN_r (u : number) : (u + NaN)%num = NaN.
Proof. destruct u; reflexivity. Qed.

Lemma norm_self (cx cy cz : number) :
  let n := Math_sqrt ((cx - cx) * (cx - cx) + (cy - cy) * (cy - cy)
                      + (cz - cz) * (cz - cz))%num in
  n = Fin 0 \/ n = NaN.
Proof.
  cbv zeta.
  destruct (square_self cx) as [Hx | Ex]; [|right; rewrite Ex; reflexivity].
  destruct (square_self cy) as [Hy | Ey]; [|right; rewrite Ey, add_NaN_r; reflexivity].
  destruct (square_self cz) as [Hz | Ez]; [|right; rewrite Ez, add_NaN_r; reflexivity].
  left. change (Fin 0) with (Math_sqrt (Fin 0 + Fin 0 + Fin 0)%num).
  apply Math_sqrt_num_eq. repeat apply num_eq_add; assumption.
Qed.

Lemma altitude_gate_self (a : Satellite) : altitude_gate a a = false.
Proof.
  unfold altitude_gate, Num.gtb.
  destruct (ToNumber_undefined (altitude a)) as [| | |q]; try reflexivity.
  cbn [Num.sub Num.Math_abs Num.ltb]. apply Qlt_bool_false_iff.
  assert (E : (q - q == 0)%Q) by ring. rewrite E. discriminate.
Qed.

(** X7.  The scan compares an object with itself when it is listed twice:
    if the object resolves at some step to a position with finite
    coordinates, the scan pushes a CRITICAL conjunction of the object with
    itself, at miss distance 0. *)
Theorem scan_duplicate_object (satellites : list Satellite) (cs : list Conjunction)
  (i j : nat) (a : Satellite) :
  scan satellites = Ok cs ->
  (i < j)%nat ->
  nth_error (filter trackable satellites) i = Some a ->
  nth_error (filter trackable satellites) j = Some a ->
  (exists k st, (k <= 30)%nat /\
                propagateSatellitePosition a (minutesAhead_of k) = Ok (Some st) /\
                finite_position (position st)) ->
  exists c,
    In c cs /\ sat1 c = a /\ sat2 c = a /\
    missDistance (closest c) = Fin 0 /\ riskLevel c = CRITICAL.
Proof.
  intros Hscan Hij Hi Hj (k & st & Hk & Hst & (qx & qy & qz & Hpos)).
  assert (Hlen : (j < List.length (filter trackable satellites))%nat).
  { apply nth_error_Some. congruence. }
  destruct (scan_Ok_pair satellites cs i j Hscan ltac:(lia)) as (u & u' & Hpair).
  unfold pair_body in Hpair. rewrite Hi, Hj in Hpair.
  fold (altitude_gate a a) in Hpair. rewrite altitude_gate_self in Hpair.
  destruct (findClosestApproach a a) as [[ca|]|] eqn:Hf; [| |discriminate].
  2:{ exfalso.
      pose proof (findClosestApproach_None_step a a k st st Hf Hk Hst Hst) as Hd.
      rewrite Hpos in Hd.
      rewrite (calculateDistance3D_self qx qy qz) in Hd. discriminate. }
  destruct (findClosestApproach_Some_step a a ca Hf)
    as (k0 & sa & sb & _ & Ha & Hb & Hd & Hfin & _).
  rewrite Ha in Hb. injection Hb as <-.
  assert (Hzero : missDistance ca = Fin 0).
  { destruct (norm_self (x (position sa)) (y (position sa)) (z (position sa))) as [E | E];
      unfold calculateDistance3D in Hd; cbv zeta in Hd; rewrite E in Hd;
      [assumption | rewrite Hd in Hfin; discriminate]. }
  set (c := {| sat1 := a; sat2 := a; closest := ca;
               riskLevel := getRiskLevel (missDistance ca) (relativeVelocity ca);
               id := {| id_sat1 := name a; id_sat2 := name a; id_now := Date_now |} |}).
  exists c.
  destruct (@scan_spec satellites cs Hscan) as (ps & _ & _ & HC).
  split; [|repeat split; [exact Hzero | simpl; now rewrite Hzero]].
  apply (HC (i, j) c). repeat split; simpl; try assumption; try lia.
  - apply altitude_gate_self.
  - rewrite Hzero. reflexivity.
Qed.

(** ** The fallback propagation *)

Lemma calculateRelativeVelocity_self (qx qy qz : Q) :
  let v := {| x := Fin qx; y := Fin qy; z := Fin qz |} in
  calculateRelativeVelocity v v = Fin 0.
Proof.
  unfold calculateRelativeVelocity. cbn [x y z Num.sub Num.mul Num.add Math_sqrt].
  assert (E : Qeq_bool ((qx - qx) * (qx - qx) + (qy - qy) * (qy - qy)
                        + (qz - qz) * (qz - qz)) 0 = true).
  { apply Qeq_bool_iff. ring. }
  now rewrite E.
Qed.

(** The velocity the fallback propagation gives an object at the altitude
    [h] above the centre of the Earth: along [y], of a size that depends on
    [h] alone. *)
Lemma propagateSimple_velocity (sat : Satellite) (m : number) (h : Q) :
  altitude sat = Some (Fin h) -> (-6371 < h)%Q ->
  velocity (propagateSimple sat m)
  = Some {| x := Fin 0;
            y := Fin (sqrt_approx (Qred ((3986004418 # 10000) / (6371 + h))));
            z := Fin 0 |}.
Proof.
  intros Halt Hh. unfold propagateSimple. cbn [velocity]. rewrite Halt.
  unfold EARTH_RADIUS_KM. cbn [ToNumber_undefined Num.add Num.div].
  assert (Hr : (0 < 6371 + h)%Q) by lra.
  assert (E0 : Qeq_bool (6371 + h) 0 = false).
  { apply not_true_is_false. intros E. apply Qeq_bool_iff in E. lra. }
  rewrite E0. cbn [Math_sqrt].
  assert (Hpos : (0 < (3986004418 # 10000) / (6371 + h))%Q).
  { apply Qlt_shift_div_l; [assumption|]. rewrite Qmult_0_l. reflexivity. }
  assert (E1 : Qeq_bool ((3986004418 # 10000) / (6371 + h)) 0 = false).
  { apply not_true_is_false. intros E. apply Qeq_bool_iff in E. lra. }
  assert (E2 : Qle_bool 0 ((3986004418 # 10000) / (6371 + h)) = true).
  { apply Qle_bool_iff. lra. }
  now rewrite E1, E2.
Qed.

Lemma fallback_search_body (a b : Satellite) (h : Q) (s s' : Search) (k : nat) :
  satrec a = None -> satrec b = None ->
  altitude a = Some (Fin h) -> altitude b = Some (Fin h) -> (-6371 < h)%Q ->
  closestRelVel s = Fin 0 ->
  search_body a b s k = Ok s' ->
  closestRelVel s' = Fin 0.
Proof.
  intros Ha Hb Halt Hblt Hh Hs. unfold search_body, propagateSatellitePosition.
  rewrite Ha, Hb. cbn [defined].
  pose proof (propagateSimple_velocity a (minutesAhead_of k) h Halt Hh) as Va.
  pose proof (propagateSimple_velocity b (minutesAhead_of k) h Hblt Hh) as Vb.
  destruct (truthy_prop (altitude a) && defined (latitude a) && defined (longitude a));
    destruct (truthy_prop (altitude b) && defined (latitude b) && defined (longitude b));
    cbn [bind]; try (intros E; injection E as <-; assumption).
  rewrite Va, Vb.
  destruct (_ <? _)%num; [|intros E; injection E as <-; assumption].
  intros E. injection E as <-. cbn [closestRelVel].
  exact (calculateRelativeVelocity_self 0 _ 0).
Qed.

Lemma fallback_relative_velocity (a b : Satellite) (h : Q) (ca : ClosestApproach) :
  satrec a = None -> satrec b = None ->
  altitude a = Some (Fin h) -> altitude b = Some (Fin h) -> (-6371 < h)%Q ->
  findClosestApproach a b = Ok (Some ca) ->
  relativeVelocity ca = Fin 0.
Proof.
  intros Ha Hb Halt Hblt Hh Hrun.
  unfold findClosestApproach in Hrun.
  destruct (for_each _ _ _) as [s|] eqn:Hloop; [|discriminate]. cbn [bind] in Hrun.
  assert (Hs : closestRelVel s = Fin 0).
  { apply (@for_each_seq_inv_Ok _ (fun _ t => closestRelVel t = Fin 0)
             (search_body a b) (S TIME_STEPS) 0%nat search_start s);
      [reflexivity | | exact Hloop].
    intros k u u' _ Hu Hbody.
    exact (fallback_search_body a b h u u' k Ha Hb Halt Hblt Hh Hu Hbody). }
  destruct (Num.is_Infinity (minDistance s)); [discriminate|].
  injection Hrun as <-. exact Hs.
Qed.

(** X8.  Between two objects without [satrec] at the same altitude the search
    reports a relative velocity of 0, however their paths cross: the fallback
    propagation gives every object the velocity vector [(0, v, 0)] with [v]
    set by the altitude.  The debris cascade of such a conjunction has exactly
    50 fragments, each with a velocity perturbation of 0 on every axis. *)
Theorem fallback_same_altitude (a b : Satellite) (h : Q) (ca : ClosestApproach) :
  satrec a = None -> satrec b = None ->
  altitude a = Some (Fin h) -> altitude b = Some (Fin h) -> (-6371 < h)%Q ->
  findClosestApproach a b = Ok (Some ca) ->
  relativeVelocity ca = Fin 0 /\
  forall c fuel rnd,
    closest c = ca -> (50 <= fuel)%nat ->
    exists debris rnd',
      simulateDebrisCascade fuel rnd c = Some (Ok (debris, rnd')) /\
      List.length debris = 50%nat /\
      forall f, In f debris ->
                num_eq (x (frag_velocity f)) (Fin 0) /\
                num_eq (y (frag_velocity f)) (Fin 0) /\
                num_eq (z (frag_velocity f)) (Fin 0).
Proof.
  intros Ha Hb Halt Hblt Hh Hrun.
  pose proof (fallback_relative_velocity a b h ca Ha Hb Halt Hblt Hh Hrun) as Hrv.
  split; [exact Hrv|].
  intros c fuel rnd Hc Hfuel. subst ca.
  destruct (findClosestApproach_Some_step a b _ Hrun) as (k & sa & sb & _ & _ & _ & _ & _ & _ & Hp).
  rewrite (@simulateDebrisCascade_run c 0 _ fuel rnd Hrv ltac:(discriminate) Hp Hfuel).
  do 2 eexists. split; [reflexivity|].
  split; [now rewrite length_map, length_seq|].
  intros f Hf. apply in_map_iff in Hf. destruct Hf as (n & <- & _).
  unfold fragment_of. rewrite Hrv. cbn [frag_velocity x y z Num.sub Num.mul num_eq].
  repeat split; ring.
Qed.

(** ** Edges of the debris cascade *)

Lemma fragmentCount_not_positive (c : Conjunction) :
  (relativeVelocity (closest c) = NaN \/ relativeVelocity (closest c) = NInf \/
   exists q, relativeVelocity (closest c) = Fin q /\ (q < - (49 # 10))%Q) ->
  (Num.of_nat 0 <? fragmentCount_of c)%num = false.
Proof.
  unfold fragmentCount_of. intros [-> | [-> | (q & -> & Hq)]]; try reflexivity.
  cbn [Num.mul Num.add Num.Math_floor]. rewrite of_nat_ltb_of_Z.
  apply Z.ltb_ge. change (Z.of_nat 0) with 0%Z.
  assert (H : (Qfloor (50 + q * 10) < 1)%Z); [|lia].
  rewrite Zlt_Qlt. eapply Qle_lt_trans; [apply Qfloor_le|]. unfold inject_Z. lra.
Qed.

Lemma fragmentCount_positive (c : Conjunction) (q : Q) :
  relativeVelocity (closest c) = Fin q -> (- (49 # 10) <= q)%Q ->
  (Num.of_nat 0 <? fragmentCount_of c)%num = true.
Proof.
  unfold fragmentCount_of. intros -> Hq.
  cbn [Num.mul Num.add Num.Math_floor]. rewrite of_nat_ltb_of_Z.
  apply Z.ltb_lt. change (Z.of_nat 0) with 0%Z.
  assert (H : (1 <= Qfloor (50 + q * 10))%Z); [|lia].
  change 1%Z with (Qfloor 1). apply Qfloor_resp_le. lra.
Qed.

(** X9.  The cascade of a conjunction whose relative velocity is NaN, minus
    infinity or below -4.9 km/s has no fragment: it returns the empty list,
    draws no random number, and does not look at the positions.  From -4.9
    km/s on it reads [positions.sat1] in its first turn, and throws when the
    conjunction has no positions. *)
Theorem simulateDebrisCascade_edges (c : Conjunction) :
  ((relativeVelocity (closest c) = NaN \/ relativeVelocity (closest c) = NInf \/
    exists q, relativeVelocity (closest c) = Fin q /\ (q < - (49 # 10))%Q) ->
   forall fuel rnd, simulateDebrisCascade fuel rnd c = Some (Ok ([], rnd))) /\
  (forall q,
      relativeVelocity (closest c) = Fin q -> (- (49 # 10) <= q)%Q ->
      positions (closest c) = None ->
      forall fuel rnd, simulateDebrisCascade (S fuel) rnd c = Some TypeError).
Proof.
  split.
  - intros Hrv fuel rnd. unfold simulateDebrisCascade.
    pose proof (fragmentCount_not_positive c Hrv) as E.
    destruct fuel; cbn [debris_loop]; now rewrite E.
  - intros q Hrv Hq Hps fuel rnd. unfold simulateDebrisCascade. cbn [debris_loop].
    rewrite (fragmentCount_positive c q Hrv Hq). unfold Math_random. now rewrite Hps.
Qed.

Lemma debris_loop_unbounded (c : Conjunction) (ps : Positions) :
  positions (closest c) = Some ps ->
  forall fuel i debris rnd, debris_loop fuel c PInf i debris rnd = None.
Proof.
  intros Hps. induction fuel as [|fuel IH]; intros i debris rnd; cbn [debris_loop];
    change (Num.of_nat i <? PInf)%num with true; cbn iota; [reflexivity|].
  unfold Math_random. rewrite Hps. apply IH.
Qed.

(** X10.  The cascade of a conjunction with an infinite relative velocity (and
    its positions) does not return: its loop is left with no amount of
    fuel. *)
Theorem simulateDebrisCascade_unbounded (c : Conjunction) (ps : Positions) :
  relativeVelocity (closest c) = PInf ->
  positions (closest c) = Some ps ->
  forall fuel rnd, simulateDebrisCascade fuel rnd c = None.
Proof.
  intros Hrv Hps fuel rnd. unfold simulateDebrisCascade, fragmentCount_of.
  rewrite Hrv. cbn [Num.mul Num.add Num.Math_floor].
  change (Fin 50 + Num.inf_of _)%num with PInf.
  now apply debris_loop_unbounded with ps.
Qed.

Lemma fragment_of_ext (c : Conjunction) (ps : Positions) (d d' : nat -> Q) (b b' : nat) :
  (forall k, (k < 4)%nat -> d (b + k)%nat = d' (b' + k)%nat) ->
  fragment_of c ps d b = fragment_of c ps d' b'.
Proof.
  intros H. unfold fragment_of.
  pose proof (H 0%nat ltac:(lia)) as H0. pose proof (H 1%nat ltac:(lia)) as H1.
  pose proof (H 2%nat ltac:(lia)) as H2. pose proof (H 3%nat ltac:(lia)) as H3.
  rewrite Nat.add_0_r in H0. rewrite !Nat.add_0_r in H0.
  replace (b + 1)%nat with (S b) in H1 by lia. replace (b' + 1)%nat with (S b') in H1 by lia.
  replace (b + 2)%nat with (S (S b)) in H2 by lia.
  replace (b' + 2)%nat with (S (S b')) in H2 by lia.
  replace (b + 3)%nat with (S (S (S b))) in H3 by lia.
  replace (b' + 3)%nat with (S (S (S b'))) in H3 by lia.
  now rewrite H0, H1, H2, H3.
Qed.

(** X11.  A cascade of [n] fragments consumes the next [4 n] draws of the
    random source, four for each fragment in the order x, y, z, size, and
    leaves the rest of the source as it is.  Its fragments depend on the
    source through these draws alone: two sources that agree on them give the
    same fragments. *)
Theorem simulateDebrisCascade_draws (c : Conjunction) (q : Q) (ps : Positions)
  (fuel : nat) (rnd : RandomSource) :
  relativeVelocity (closest c) = Fin q -> (0 <= q)%Q ->
  positions (closest c) = Some ps ->
  (Z.to_nat (Qfloor (50 + q * 10)) <= fuel)%nat ->
  exists debris rnd',
    simulateDebrisCascade fuel rnd c = Some (Ok (debris, rnd')) /\
    draws rnd' = draws rnd /\
    drawn rnd' = (drawn rnd + 4 * List.length debris)%nat /\
    forall other,
      (forall k, (k < 4 * List.length debris)%nat ->
                 draws other (drawn other + k)%nat = draws rnd (drawn rnd + k)%nat) ->
      exists other', simulateDebrisCascade fuel other c = Some (Ok (debris, other')).
Proof.
  intros Hrv Hq Hps Hfuel.
  rewrite (@simulateDebrisCascade_run c q ps fuel rnd Hrv Hq Hps Hfuel).
  do 2 eexists. split; [reflexivity|]. cbn [draws drawn].
  rewrite length_map, length_seq. repeat split.
  intros other Hsame.
  rewrite (@simulateDebrisCascade_run c q ps fuel other Hrv Hq Hps Hfuel).
  eexists. f_equal. f_equal. f_equal.
  apply map_ext_in. intros k Hk. apply in_seq in Hk.
  apply fragment_of_ext. intros k' Hk'.
  rewrite <- !Nat.add_assoc. apply Hsame. lia.
Qed.

(** ** The impact of a cascade *)

Lemma existsb_constant {A : Type} (f : A -> bool) (b : bool) (l : list A) :
  l <> [] -> (forall a, In a l -> f a = b) -> existsb f l = b.
Proof.
  induction l as [|a l IH]; intros Hne Hall; [congruence|].
  cbn [existsb]. rewrite (Hall a (or_introl eq_refl)).
  destruct b; [reflexivity|]. destruct l as [|a' l]; [reflexivity|].
  apply IH; [discriminate|]. intros a0 H0. apply Hall. now right.
Qed.

(** X13.  All the fragments of a cascade start at the closest-approach
    position of the first object, so the objects the assessor flags after a
    cascade are those with a position less than 100 km from that one point,
    whatever the random draws and the relative velocity have been. *)
Theorem impact_of_cascade (c : Conjunction) (q : Q) (ps : Positions)
  (fuel : nat) (rnd : RandomSource) (allSatellites : list Satellite) :
  relativeVelocity (closest c) = Fin q -> (0 <= q)%Q ->
  positions (closest c) = Some ps ->
  (Z.to_nat (Qfloor (50 + q * 10)) <= fuel)%nat ->
  exists debris rnd',
    simulateDebrisCascade fuel rnd c = Some (Ok (debris, rnd')) /\
    (forall f, In f debris -> frag_position f = Some (pos_sat1 ps)) /\
    identifyAffectedSatellites debris allSatellites
    = map impact (filter (near (pos_sat1 ps)) allSatellites).
Proof.
  intros Hrv Hq Hps Hfuel.
  rewrite (@simulateDebrisCascade_run c q ps fuel rnd Hrv Hq Hps Hfuel).
  do 2 eexists. split; [reflexivity|].
  set (debris := map _ _).
  assert (Hpos : forall f, In f debris -> frag_position f = Some (pos_sat1 ps)).
  { intros f Hf. apply in_map_iff in Hf. destruct Hf as (k & <- & _). reflexivity. }
  split; [exact Hpos|].
  rewrite identifyAffectedSatellites_eq. f_equal.
  apply filter_ext. intros sat. unfold inDebrisZone, near.
  apply existsb_constant.
  - assert (Hn : (1 <= Z.to_nat (Qfloor (50 + q * 10)))%nat).
    { assert (H50 : (50 <= Qfloor (50 + q * 10))%Z).
      { apply (Qfloor_resp_le 50 (50 + q * 10)). lra. }
      lia. }
    subst debris. destruct (Z.to_nat (Qfloor (50 + q * 10))); [lia | discriminate].
  - intros f Hf. rewrite (Hpos f Hf). reflexivity.
Qed.

(** X14.  The assessor flags an object for a set of fragments exactly when it
    flags it for one of its parts: it flags nothing without fragments, adding
    fragments never clears an object, and the flagged objects keep the order
    of the catalog, so there are no more of them than objects. *)
Theorem identifyAffectedSatellites_union (d1 d2 : list Fragment)
  (allSatellites : list Satellite) :
  identifyAffectedSatellites [] allSatellites = [] /\
  (forall r, In r (identifyAffectedSatellites (d1 ++ d2) allSatellites) <->
             In r (identifyAffectedSatellites d1 allSatellites) \/
             In r (identifyAffectedSatellites d2 allSatellites)) /\
  (List.length (identifyAffectedSatellites d1 allSatellites)
   <= List.length allSatellites)%nat /\
  (exists kept, map satellite (identifyAffectedSatellites d1 allSatellites)
                = filter kept allSatellites).
Proof.
  split; [|split; [|split]].
  - induction allSatellites as [|sat rest IH]; [reflexivity | exact IH].
  - intros r. rewrite !identifyAffectedSatellites_eq, !in_map_iff.
    split.
    + intros (sat & <- & Hin). apply filter_In in Hin. destruct Hin as [Hin Hz].
      unfold inDebrisZone in Hz. rewrite existsb_app in Hz.
      apply orb_true_iff in Hz. destruct Hz as [Hz | Hz]; [left | right];
        exists sat; (split; [reflexivity | apply filter_In; split; assumption]).
    + intros [(sat & <- & Hin) | (sat & <- & Hin)]; apply filter_In in Hin;
        destruct Hin as [Hin Hz]; exists sat; (split; [reflexivity|]);
        apply filter_In; (split; [assumption|]); unfold inDebrisZone;
        rewrite existsb_app; apply orb_true_iff; [left | right]; exact Hz.
  - rewrite identifyAffectedSatellites_eq, length_map. apply filter_length_le.
  - exists (inDebrisZone d1). rewrite identifyAffectedSatellites_eq, map_map.
    apply map_id.
Qed.

(** ** The catalog *)

Section CatalogProperties.
Variable twoline2satrec : string -> string -> option Satrec.
Variable gstime : number -> number.
Variable eciToGeodetic : Vec3 -> number -> Geodetic.
Variable String_trim : string -> string.
Variable Number_toString_other : Q -> string.

Lemma lines_ind3 (P : list string -> Prop) :
  P [] -> (forall a, P [a]) -> (forall a b, P [a; b]) ->
  (forall a b c rest, P rest -> P (a :: b :: c :: rest)) ->
  forall lines, P lines.
Proof.
  intros H0 H1 H2 H3. fix IH 1.
  intros [|a [|b [|c rest]]]; [exact H0 | apply H1 | apply H2 | apply H3; apply IH].
Qed.

Lemma parseTLEData_loop_objects (lines : list string) (o : CatalogObject) :
  In o (parseTLEData_loop twoline2satrec gstime eciToGeodetic String_trim lines) ->
  exists rec p,
    satrec (object o) = Some rec /\
    sat_timestamp (object o) = Some Date_now /\
    pv_position (rec Date_now) = Some p /\
    sat_position (object o) = Some p /\
    Num.truthy (x p) = true.
Proof.
  revert lines. apply (lines_ind3 (fun lines => In o (parseTLEData_loop _ _ _ _ lines) -> _));
    try (intros; contradiction).
  intros a b c rest IH. cbn [parseTLEData_loop].
  destruct (twoline2satrec _ _) as [rec|]; [|exact IH].
  destruct (pv_position (rec Date_now)) as [p|] eqn:Hp; [|exact IH].
  destruct (Num.truthy (x p)) eqn:Hx; [|exact IH].
  intros [<- | Hin]; [|exact (IH Hin)].
  exists rec, p. repeat split; assumption.
Qed.

Lemma parseTLEData_loop_length (lines : list string) :
  (3 * List.length (parseTLEData_loop twoline2satrec gstime eciToGeodetic String_trim lines)
   <= List.length lines)%nat.
Proof.
  apply (lines_ind3 (fun lines => (3 * List.length (parseTLEData_loop _ _ _ _ lines)
                                   <= List.length lines)%nat));
    try (intros; cbn [parseTLEData_loop List.length]; lia).
  intros a b c rest IH. cbn [parseTLEData_loop].
  destruct (twoline2satrec _ _) as [rec|]; [|cbn [List.length]; lia].
  destruct (pv_position (rec Date_now)) as [p|]; [|cbn [List.length]; lia].
  destruct (Num.truthy (x p)); cbn [List.length]; lia.
Qed.

(** X15.  Every object [parseTLEData] returns has its orbital record, the
    date of the parsing as timestamp and the position the record propagates
    to at that date, whose [x] is truthy: a record that propagates to a
    position with [x] equal to 0 or NaN is dropped, like one that
    does not propagate.  Three lines give at most one object. *)
Theorem parseTLEData_objects (tleString : string) :
  (forall o,
      In o (parseTLEData twoline2satrec gstime eciToGeodetic String_trim tleString) ->
      exists rec p,
        satrec (object o) = Some rec /\
        sat_timestamp (object o) = Some Date_now /\
        pv_position (rec Date_now) = Some p /\
        sat_position (object o) = Some p /\
        Num.truthy (x p) = true /\
        trackable (object o) = true /\ undated (object o) = false) /\
  (forall line0 line1 line2 rest rec p,
      twoline2satrec (String_trim line1) (String_trim line2) = Some rec ->
      pv_position (rec Date_now) = Some p ->
      (x p = Fin 0 \/ x p = NaN) ->
      parseTLEData_loop twoline2satrec gstime eciToGeodetic String_trim
        (line0 :: line1 :: line2 :: rest)
      = parseTLEData_loop twoline2satrec gstime eciToGeodetic String_trim rest) /\
  (3 * List.length (parseTLEData twoline2satrec gstime eciToGeodetic String_trim tleString)
   <= List.length (String_split "010" (String_trim tleString)))%nat.
Proof.
  split; [|split].
  - intros o Hin. destruct (parseTLEData_loop_objects _ _ Hin) as (rec & p & Hr & Ht & Hp & Hs & Hx).
    exists rec, p. repeat split; try assumption.
    + unfold trackable. now rewrite Hr.
    + unfold undated. now rewrite Hr, Ht.
  - intros line0 line1 line2 rest rec p Hrec Hp Hx. cbn [parseTLEData_loop].
    rewrite Hrec, Hp. destruct Hx as [-> | ->]; reflexivity.
  - apply parseTLEData_loop_length.
Qed.

(** *** Generated objects *)

Lemma generated_placed (n t c : string) (alt lat lon : number) (svc : string) :
  placed (object (generated n t c alt lat lon svc)) alt.
Proof. repeat split. Qed.

Lemma fold_left_push {A : Type} (f : nat -> A) (ks : list nat) (acc : list A) :
  fold_left (fun acc i => acc ++ [f i]) ks acc = acc ++ map f ks.
Proof.
  revert acc. induction ks as [|k ks IH]; intros acc; cbn [fold_left map].
  - now rewrite app_nil_r.
  - rewrite IH, <- app_assoc. reflexivity.
Qed.

Lemma nth_error_map_seq {A : Type} (f : nat -> A) (n i : nat) (a : A) :
  nth_error (map f (seq 0 n)) i = Some a -> (i < n)%nat /\ a = f i.
Proof.
  intros H. rewrite nth_error_map in H.
  destruct (nth_error (seq 0 n) i) as [k|] eqn:Ek; [|discriminate].
  assert (Hlt : (i < List.length (seq 0 n))%nat) by (apply nth_error_Some; congruence).
  rewrite length_seq in Hlt. rewrite nth_error_seq in Ek.
  destruct (Nat.ltb_spec i n); [|lia].
  injection Ek as <-. cbn [option_map] in H. injection H as <-. split; [assumption | reflexivity].
Qed.

Lemma generateSyntheticDebris_run (d : nat -> Q) (b : nat) :
  forall n a acc,
    fold_left (generateSyntheticDebris_body Number_toString_other) (seq a n)
      (acc, {| draws := d; drawn := b + 3 * a |})
    = (acc ++ map (synthetic Number_toString_other d b) (seq a n),
       {| draws := d; drawn := b + 3 * (a + n) |}).
Proof.
  induction n as [|n IH]; intros a acc.
  - cbn [seq fold_left map]. now rewrite app_nil_r, Nat.add_0_r.
  - cbn [seq fold_left map].
    unfold generateSyntheticDebris_body at 2. unfold Math_random. cbn [draws drawn].
    replace (S (S (S (b + 3 * a)))) with (b + 3 * S a)%nat by lia.
    rewrite IH, <- app_assoc. cbn [app].
    replace (S a + n)%nat with (a + S n)%nat by lia. reflexivity.
Qed.

Lemma Qred_inject_Z (z : Z) : Qred (inject_Z z) = inject_Z z.
Proof.
  apply Qcanon.Qred_identity. cbn [inject_Z Qnum Qden]. apply Z.gcd_1_r.
Qed.

(** [String] prints an integer below [2^53] in decimal digits, whatever the
    fraction that represents it. *)
Lemma Number_toString_integer (q : Q) (z : Z) :
  (q == inject_Z z)%Q -> (Z.abs z < 2 ^ 53)%Z ->
  Number_toString Number_toString_other (Fin q) = decimal z.
Proof.
  intros E Hz. unfold Number_toString.
  rewrite (Qred_complete _ _ E), Qred_inject_Z. cbn [inject_Z Qnum Qden].
  apply Z.ltb_lt in Hz. rewrite Hz. reflexivity.
Qed.

(** X16.  [generateSyntheticDebris(count)] returns [count] objects named
    DEBRIS-1000, DEBRIS-1001, ..., and consumes three draws for each, for the
    altitude, the latitude and the longitude in turn, for a count up to
    [2^53 - 1000], where the numbers of the names are exact.  With draws in
    [0, 1) every object has an altitude from 300 to 800 km, a latitude from
    -90 to below 90 and a longitude from -180 to below 180 degrees; it has no
    orbital record and no position.  (The altitude 800 is not reached in
    exact arithmetic; the bound is the one that also holds of the rounded
    sum.) *)
Theorem generateSyntheticDebris_objects (count : nat) (rnd : RandomSource) :
  (forall k, 0 <= draws rnd k < 1)%Q ->
  (Z.of_nat count <= 2 ^ 53 - 1000)%Z ->
  exists debris rnd',
    generateSyntheticDebris Number_toString_other count rnd = (debris, rnd') /\
    List.length debris = count /\
    draws rnd' = draws rnd /\ drawn rnd' = (drawn rnd + 3 * count)%nat /\
    forall i o, nth_error debris i = Some o ->
      name (object o) = ("DEBRIS-" ++ decimal (1000 + Z.of_nat i))%string /\
      service o = Some "Space Debris"%string /\
      exists a la lo,
        placed (object o) (Fin a) /\ (300 <= a <= 800)%Q /\
        latitude (object o) = Some (Fin la) /\ (-90 <= la < 90)%Q /\
        longitude (object o) = Some (Fin lo) /\ (-180 <= lo < 180)%Q.
Proof.
  intros Hdraws Hcount. destruct rnd as [d b]. cbn [draws drawn] in *.
  unfold generateSyntheticDebris.
  pose proof (generateSyntheticDebris_run d b count 0 []) as Hrun_.
  rewrite Nat.mul_0_r, Nat.add_0_r in Hrun_. cbn [app Nat.add] in Hrun_. rewrite Hrun_.
  do 2 eexists. split; [reflexivity|]. cbn [draws drawn].
  split; [now rewrite length_map, length_seq|]. split; [reflexivity|]. split; [reflexivity|].
  intros i o Ho. apply nth_error_map_seq in Ho. destruct Ho as [Hi ->].
  unfold synthetic. split; [|split; [reflexivity|]].
  - cbn [generated object name]. f_equal.
    apply Number_toString_integer.
    + unfold Num.of_nat, Num.of_Z. rewrite inject_Z_plus. reflexivity.
    + lia.
  - generalize (b + 3 * i)%nat. intros j.
    pose proof (Hdraws j) as H1. pose proof (Hdraws (S j)) as H2.
    pose proof (Hdraws (S (S j))) as H3.
    cbn [Num.add Num.sub Num.mul].
    do 3 eexists. split; [apply generated_placed|].
    cbn [generated object latitude longitude].
    split; [lra|]. split; [reflexivity|]. split; [lra|]. split; [reflexivity | lra].
Qed.

Lemma generateDemoSatellites_eq :
  generateDemoSatellites Number_toString_other
  = (demo_station :: map (demo_starlink Number_toString_other) (seq 0 50))
    ++ map (demo_gps Number_toString_other) (seq 0 12).
Proof.
  unfold generateDemoSatellites.
  rewrite (fold_left_push (demo_starlink Number_toString_other)).
  rewrite (fold_left_push (demo_gps Number_toString_other)).
  reflexivity.
Qed.

Lemma generateDemoSatellites_placed (sat : Satellite) :
  In sat (map object (generateDemoSatellites Number_toString_other)) ->
  placed sat (Fin 408) \/ placed sat (Fin 550) \/ placed sat (Fin 20180).
Proof.
  rewrite generateDemoSatellites_eq.
  intros Hin. apply in_map_iff in Hin. destruct Hin as (o & <- & Hin).
  apply in_app_or in Hin. destruct Hin as [[<- | Hin] | Hin].
  - left. apply generated_placed.
  - apply in_map_iff in Hin. destruct Hin as (i & <- & _). right. left.
    apply generated_placed.
  - apply in_map_iff in Hin. destruct Hin as (i & <- & _). right. right.
    apply generated_placed.
Qed.

Lemma placed_well_dated (sat : Satellite) (alt : number) : placed sat alt -> well_dated sat.
Proof. intros (Hs & _) H. rewrite Hs in H. discriminate. Qed.

Lemma placed_not_in_zone (sat : Satellite) (alt : number) (debris : list Fragment) :
  placed sat alt -> inDebrisZone debris sat = false.
Proof.
  intros (_ & Hp & _). unfold inDebrisZone. rewrite Hp.
  induction debris as [|f debris IH]; [reflexivity | exact IH].
Qed.

(** X17.  A catalog made of objects parsed from TLEs, synthetic debris and
    demo objects never makes the detection throw, and of such a catalog the
    impact assessor can flag the parsed objects only: the generated ones
    have no position. *)
Theorem generated_catalog_safe (catalog : list Satellite) :
  (forall sat, In sat catalog ->
     (exists tle, In sat (map object (parseTLEData twoline2satrec gstime eciToGeodetic
                                        String_trim tle))) \/
     (exists count rnd,
         In sat (map object (fst (generateSyntheticDebris Number_toString_other count rnd)))) \/
     In sat (map object (generateDemoSatellites Number_toString_other))) ->
  (exists out, detectConjunctions catalog = Ok out) /\
  (forall debris r,
      In r (identifyAffectedSatellites debris catalog) ->
      exists tle, In (satellite r) (map object (parseTLEData twoline2satrec gstime
                                                  eciToGeodetic String_trim tle))).
Proof.
  intros Hcat.
  assert (Hkind : forall sat, In sat catalog ->
            (exists tle, In sat (map object (parseTLEData twoline2satrec gstime eciToGeodetic
                                               String_trim tle)))
            \/ exists alt, placed sat alt).
  { intros sat Hin. destruct (Hcat sat Hin) as [Ht | [(count & rnd & Hg) | Hd]].
    - left. exact Ht.
    - right. destruct rnd as [d b]. unfold generateSyntheticDebris in Hg.
      pose proof (generateSyntheticDebris_run d b count 0 []) as Hrun_.
      rewrite Nat.mul_0_r, Nat.add_0_r in Hrun_. cbn [app Nat.add] in Hrun_.
      rewrite Hrun_ in Hg. cbn [fst] in Hg.
      apply in_map_iff in Hg. destruct Hg as (o & <- & Ho).
      apply in_map_iff in Ho. destruct Ho as (i & <- & _).
      eexists. apply generated_placed.
    - right. destruct (generateDemoSatellites_placed _ Hd) as [H | [H | H]]; eauto. }
  split.
  - destruct (scan_total catalog) as (cs & Hcs).
    + apply Forall_forall. intros sat Hin. apply filter_In in Hin. destruct Hin as [Hin _].
      destruct (Hkind sat Hin) as [(tle & Ht) | (alt & Hp)].
      * apply in_map_iff in Ht. destruct Ht as (o & <- & Ho).
        destruct (parseTLEData_loop_objects _ _ Ho) as (rec & p & _ & Hts & _).
        intros _. now rewrite Hts.
      * exact (placed_well_dated _ _ Hp).
    + unfold detectConjunctions. rewrite Hcs. cbn [bind]. eauto.
  - intros debris r Hr. rewrite identifyAffectedSatellites_eq in Hr.
    apply in_map_iff in Hr. destruct Hr as (sat & <- & Hin).
    apply filter_In in Hin. destruct Hin as [Hin Hz]. cbn [impact satellite].
    destruct (Hkind sat Hin) as [Ht | (alt & Hp)]; [exact Ht|].
    rewrite (placed_not_in_zone _ _ debris Hp) in Hz. discriminate.
Qed.

Lemma filter_all {A : Type} (f : A -> bool) (l : list A) :
  (forall a, In a l -> f a = true) -> filter f l = l.
Proof.
  induction l as [|a l IH]; intros H; [reflexivity|].
  cbn [filter]. rewrite (H a (or_introl eq_refl)).
  f_equal. apply IH. intros a' Ha'. apply H. now right.
Qed.

Lemma placed_trackable (sat : Satellite) (h : Q) :
  ~ (h == 0)%Q -> placed sat (Fin h) -> trackable sat = true.
Proof.
  intros Hh (_ & _ & _ & Ha & _). unfold trackable. rewrite Ha.
  cbn [truthy_prop Num.truthy].
  destruct (Qeq_bool h 0) eqn:E; [apply Qeq_bool_iff in E; contradiction|].
  apply orb_true_r.
Qed.

Lemma placed_gate (a b : Satellite) (p q : Q) :
  placed a (Fin p) -> placed b (Fin q) ->
  altitude_gate a b = Num.Qlt_bool 100 (Qabs (p - q)).
Proof.
  intros (_ & _ & _ & Ha & _) (_ & _ & _ & Hb & _). unfold altitude_gate.
  now rewrite Ha, Hb.
Qed.

(** X18.  The demo catalog has 63 objects in three shells: the station at
    408 km, fifty objects named STARLINK-1000 to STARLINK-1049 at 550 km and
    twelve named GPS-1 to GPS-12 at 20180 km, all of them trackable, without
    orbital record and without position.  The altitude gate lets a pair of
    demo objects through exactly when the two are in the same shell; the
    station is alone in its shell, so its turn of the pairwise loop starts no
    search and pushes nothing. *)
Theorem generateDemoSatellites_shells :
  let demo := map object (generateDemoSatellites Number_toString_other) in
  map altitude demo
  = Some (Fin 408) :: repeat (Some (Fin 550)) 50 ++ repeat (Some (Fin 20180)) 12 /\
  map name demo
  = "ISS (DEMO)"%string
    :: map (fun i => ("STARLINK-" ++ decimal (Z.of_nat i + 1000))%string) (seq 0 50)
    ++ map (fun i => ("GPS-" ++ decimal (Z.of_nat i + 1))%string) (seq 0 12) /\
  (forall sat, In sat demo ->
               satrec sat = None /\ sat_position sat = None /\
               sat_timestamp sat = Some Date_now) /\
  filter trackable demo = demo /\
  (forall a b, In a demo -> In b demo ->
               (altitude_gate a b = false <-> altitude a = altitude b)) /\
  (forall j conjunctions,
      (1 <= j < 63)%nat -> pair_body demo 0 conjunctions j = Ok conjunctions).
Proof.
  intros demo.
  assert (Hdemo : demo = (object demo_station
                          :: map (fun i => object (demo_starlink Number_toString_other i))
                               (seq 0 50))
                         ++ map (fun i => object (demo_gps Number_toString_other i))
                              (seq 0 12)).
  { unfold demo. rewrite generateDemoSatellites_eq, map_app. cbn [map].
    now rewrite !map_map. }
  assert (Hshell : forall sat, In sat demo ->
            placed sat (Fin 408) \/ placed sat (Fin 550) \/ placed sat (Fin 20180)).
  { intros sat. apply generateDemoSatellites_placed. }
  split; [|split; [|split; [|split; [|split]]]].
  - rewrite Hdemo. reflexivity.
  - rewrite Hdemo. vm_compute. reflexivity.
  - intros sat Hin.
    destruct (Hshell sat Hin) as [H | [H | H]]; destruct H as (H1 & H2 & H3 & _);
      repeat split; assumption.
  - apply filter_all. intros sat Hin.
    destruct (Hshell sat Hin) as [H | [H | H]];
      (eapply placed_trackable; [|exact H]); discriminate.
  - intros a b Ha Hb.
    destruct (Hshell a Ha) as [H1 | [H1 | H1]], (Hshell b Hb) as [H2 | [H2 | H2]];
      rewrite (placed_gate _ _ _ _ H1 H2);
      destruct H1 as (_ & _ & _ & -> & _), H2 as (_ & _ & _ & -> & _);
      split; intros E; try reflexivity; try discriminate E.
  - intros j conjunctions Hj.
    assert (Hj' : exists sat, nth_error demo j = Some sat /\
                              (placed sat (Fin 550) \/ placed sat (Fin 20180))).
    { rewrite Hdemo. destruct j as [|j]; [lia|]. cbn [app nth_error].
      destruct (nth_error _ j) as [sat|] eqn:Ej.
      - exists sat. split; [reflexivity|].
        apply nth_error_In, in_app_or in Ej. destruct Ej as [Ej | Ej];
          apply in_map_iff in Ej; destruct Ej as (i & <- & _);
          [left | right]; apply generated_placed.
      - apply nth_error_None in Ej.
        rewrite length_app, !length_map, !length_seq in Ej. lia. }
    destruct Hj' as (sat & Hsat & Hplaced).
    unfold pair_body. rewrite Hsat.
    replace (nth_error demo 0) with (Some (object demo_station))
      by (rewrite Hdemo; reflexivity).
    cbv beta iota. fold (altitude_gate (object demo_station) sat).
    assert (Hstation : placed (object demo_station) (Fin 408)) by apply generated_placed.
    destruct Hplaced as [H | H]; rewrite (placed_gate _ _ _ _ Hstation H); reflexivity.
Qed.

(** *** The countdown *)

Lemma countdown_minutes (n : Z) :
  (Z.abs n < 2 ^ 53)%Z ->
  Number_toString Number_toString_other (Num.Math_floor (Num.of_Z n / Fin 60))
  = decimal (n / 60).
Proof.
  intros Hn. unfold Num.of_Z. cbn [Num.div]. change (Qeq_bool 60 0) with false. cbn iota.
  cbn [Num.Math_floor]. unfold Num.of_Z.
  apply Number_toString_integer.
  - rewrite (Zdiv_Qdiv n 60). reflexivity.
  - assert (H : (- 2 ^ 53 < n / 60 < 2 ^ 53)%Z); [|lia].
    split.
    + apply Z.lt_le_trans with (m := (- 2 ^ 53 / 60)%Z); [reflexivity|].
      apply Z.div_le_mono; lia.
    + apply Z.le_lt_trans with (m := (2 ^ 53 / 60)%Z); [|reflexivity].
      apply Z.div_le_mono; lia.
Qed.

Lemma countdown_seconds (n : Z) :
  Number_toString Number_toString_other (Number_remainder (Num.of_Z n) (Fin 60))
  = decimal (Z.rem n 60).
Proof.
  unfold Num.of_Z. cbn [Number_remainder]. change (Qeq_bool 60 0) with false. cbn iota.
  apply Number_toString_integer.
  - cbn [Qdiv Qinv Qmult Qnum Qden inject_Z]. rewrite Z.mul_1_r.
    change (Z.pos (1 * 60)) with 60%Z.
    pose proof (Z.quot_rem' n 60) as E.
    unfold Qeq, Qminus, Qplus, Qopp, Qmult, inject_Z. cbn [Qnum Qden]. lia.
  - pose proof (Z.rem_bound_abs n 60 ltac:(lia)). lia.
Qed.

Lemma formatCountdown_finite (q : Q) :
  (Z.abs (Qfloor (q * 60)) < 2 ^ 53)%Z ->
  formatCountdown Number_toString_other (Fin q)
  = ("T-" ++ String_padStart (decimal (Qfloor (q * 60) / 60)) 2 "0" ++ ":"
     ++ String_padStart (decimal (Z.rem (Qfloor (q * 60)) 60)) 2 "0")%string.
Proof.
  intros Hn. unfold formatCountdown. cbn [Num.mul Num.Math_floor].
  now rewrite (countdown_minutes _ Hn), countdown_seconds.
Qed.

(** X19.  [formatCountdown] prints a finite time by its whole seconds [n],
    for [n] below [2^53] in absolute value: the minutes are the quotient of
    [n] by 60 rounded down, the seconds the remainder of the truncated
    division, each padded to two characters.  A missing time prints as
    T-NaN:NaN. *)
Theorem formatCountdown_spec (q : Q) :
  ((Z.abs (Qfloor (q * 60)) < 2 ^ 53)%Z ->
   formatCountdown Number_toString_other (Fin q)
   = ("T-" ++ String_padStart (decimal (Qfloor (q * 60) / 60)) 2 "0" ++ ":"
      ++ String_padStart (decimal (Z.rem (Qfloor (q * 60)) 60)) 2 "0")%string) /\
  formatCountdown Number_toString_other (ToNumber_undefined None) = "T-NaN:NaN"%string.
Proof.
  split; [apply formatCountdown_finite | reflexivity].
Qed.

(** X20.  The countdown of a detected conjunction shows whole minutes: its
    time to closest approach is a step [k] of the search, from 0 to 30, and
    prints as T-kk:00. *)
Theorem formatCountdown_detected (satellites : list Satellite) (out : list Conjunction)
  (c : Conjunction) :
  detectConjunctions satellites = Ok out -> In c out ->
  exists k,
    (k <= 30)%nat /\
    formatCountdown Number_toString_other
      (ToNumber_undefined (timeToClosestApproach (closest c)))
    = ("T-" ++ String_padStart (decimal (Z.of_nat k)) 2 "0" ++ ":00")%string.
Proof.
  intros Hrun Hin.
  destruct (@detectConjunctions_qualifies satellites out c Hrun Hin)
    as (p & _ & _ & _ & _ & Hf & _).
  destruct (@findClosestApproach_Some _ _ _ Hf) as (k & Hk & Ht & _).
  exists k. split; [exact Hk|]. rewrite Ht. cbn [ToNumber_undefined].
  rewrite minutesAhead_of_eq.
  assert (E : Qfloor (inject_Z (Z.of_nat k) / 30 * 30 * 60) = (Z.of_nat k * 60)%Z).
  { rewrite <- (Qfloor_Z (Z.of_nat k * 60)). apply Qfloor_comp.
    rewrite inject_Z_mult. change (inject_Z 60) with 60%Q. field. }
  rewrite formatCountdown_finite; rewrite E; [|lia].
  rewrite Z.div_mul by discriminate. rewrite Z.rem_mul by discriminate. reflexivity.
Qed.

(** X21.  A conjunction card never shows kilometres for a detected
    conjunction: the miss distance is below 1 km, and the card shows it
    rounded to a whole number of metres from 0 to 1000, the square root of
    the platform being non-negative. *)
Theorem missDistance_value_detected (Number_toFixed : number -> nat -> string)
  (satellites : list Satellite) (out : list Conjunction) (c : Conjunction) :
  (forall v, 0 <= sqrt_approx v)%Q ->
  detectConjunctions satellites = Ok out -> In c out ->
  exists q,
    missDistance (closest c) = Fin q /\
    (0 <= Qfloor (q * 1000 + (1 # 2)) <= 1000)%Z /\
    missDistance_value Number_toString_other Number_toFixed c
    = (decimal (Qfloor (q * 1000 + (1 # 2))) ++ " m")%string.
Proof.
  intros Hsqrt Hrun Hin.
  destruct (@detectConjunctions_qualifies satellites out c Hrun Hin)
    as (p & _ & _ & _ & _ & Hf & Hm & _).
  destruct (findClosestApproach_Some_step _ _ _ Hf) as (k & sa & sb & _ & _ & _ & Hd & _).
  unfold HIGH_RISK_THRESHOLD_KM in Hm. unfold missDistance_value. rewrite Hm.
  destruct (missDistance (closest c)) as [| | |q] eqn:Eq;
    [discriminate Hm | discriminate Hm
     | exfalso; symmetry in Hd; revert Hd; apply Math_sqrt_not_NInf |].
  assert (H0 : (0 <= q)%Q).
  { unfold calculateDistance3D, Math_sqrt in Hd.
    destruct (_ + _ + _)%num as [| | |v]; try discriminate.
    destruct (Qeq_bool v 0); [injection Hd as ->; apply Qle_refl|].
    destruct (Qle_bool 0 v); [|discriminate]. injection Hd as ->. apply Hsqrt. }
  cbn [Num.ltb] in Hm. apply Qlt_bool_iff in Hm.
  assert (Hn : (0 <= Qfloor (q * 1000 + (1 # 2)) <= 1000)%Z).
  { split.
    - apply (Qfloor_resp_le 0 (q * 1000 + (1 # 2))). lra.
    - assert (H : (Qfloor (q * 1000 + (1 # 2)) < 1001)%Z); [|lia].
      rewrite Zlt_Qlt. eapply Qle_lt_trans; [apply Qfloor_le|]. unfold inject_Z. lra. }
  exists q. split; [reflexivity|]. split; [exact Hn|].
  cbn [Num.mul Math_round]. unfold Num.of_Z.
  rewrite (Number_toString_integer _ (Qfloor (q * 1000 + (1 # 2)))); [reflexivity | reflexivity | lia].
Qed.

End CatalogProperties.

End Engine.

Unset Implicit Arguments.

(** * Examples *)

Import Example.

Abbreviation resolved_ex := (resolved sqrt_approx not_called1 not_called1 not_called2 now).
Abbreviation findClosestApproach_ex :=
  (findClosestApproach sqrt_approx not_called1 not_called1 not_called2 now).
Abbreviation pair_body_ex := (pair_body sqrt_approx not_called1 not_called1 not_called2 now).
Abbreviation detectConjunctions_ex :=
  (detectConjunctions sqrt_approx not_called1 not_called1 not_called2 now).
Abbreviation simulateDebrisCascade_ex := (simulateDebrisCascade now).
Abbreviation identifyAffectedSatellites_ex := (identifyAffectedSatellites sqrt_approx).

(** C1 at the head-on pair: the search returns the approach of minute 12,
    0.05 km apart at 8 km/s. *)
Lemma findClosestApproach_spec_witness :
  exists ca,
    findClosestApproach_ex east west = Ok (Some ca) /\
    (missDistance ca <? PInf)%num = true /\
    (forall j a b, (j <= 30)%nat -> resolved_ex east j = Some a -> resolved_ex west j = Some b ->
       (calculateDistance3D sqrt_approx (position a) (position b) <? missDistance ca)%num
       = false) /\
    missDistance ca = Fin (1 # 20) /\
    timeToClosestApproach ca = Some (Fin (360 # 30)) /\
    relativeVelocity ca = Fin 8.
Proof.
  pose proof (@findClosestApproach_spec sqrt_approx not_called1 not_called1 not_called2 now
                east west (fun _ => eq_refl) (fun _ => eq_refl)) as H.
  destruct (findClosestApproach_ex east west) as [[ca|]|] eqn:E.
  - exists ca. destruct H as (k & a & b & _ & _ & _ & _ & Hfin & _ & _ & _ & Hmin & _).
    split; [reflexivity|]. split; [exact Hfin|]. split; [exact Hmin|].
    vm_compute in E. injection E as <-. repeat split.
  - vm_compute in E. discriminate.
  - destruct H.
Defined.

(** C3 at the formation: the cycle returns a list of at most five
    conjunctions in ascending order of time. *)
Lemma detectConjunctions_order_witness :
  exists out,
    detectConjunctions_ex [lead; wing; tail; high] = Ok out /\
    StronglySorted time_le out /\
    (List.length out <= 5)%nat.
Proof.
  destruct (detectConjunctions_order sqrt_approx not_called1 not_called1 not_called2 now
              [lead; wing; tail; high]) as [Htotal Hspec].
  destruct Htotal as (cs & Hscan).
  { repeat constructor. }
  destruct (Hspec cs Hscan) as (_ & Hout & _ & _ & _ & Hsorted & Hlen).
  eexists. split; [exact Hout|]. split; assumption.
Defined.

(** C3 fails as stated: the three conjunctions of the formation at 8 km/s
    are due at the same time, and the cycle returns them in the order of the
    scan, the one 0.75 km apart before the one 0.25 km apart. *)
Lemma ties_keep_scan_order :
  summaries (detectConjunctions_ex [van; flank; rear])
  = Some [("VAN"%string, "FLANK"%string, Fin (3 # 4), Some (Fin (0 # 30)));
          ("VAN"%string, "REAR"%string, Fin (1 # 4), Some (Fin (0 # 30)));
          ("FLANK"%string, "REAR"%string, Fin (1 # 2), Some (Fin (0 # 30)))] /\
  exists c1 c2 c3,
    detectConjunctions_ex [van; flank; rear] = Ok [c1; c2; c3] /\
    time_of c1 = time_of c2 /\
    (missDistance (closest c2) <? missDistance (closest c1))%num = true /\
    tie_broken_order c1 c2 = false.
Proof.
  split; [vm_compute; reflexivity|].
  destruct (detectConjunctions_ex [van; flank; rear])
    as [[|c1 [|c2 [|c3 [|c4 rest]]]]|] eqn:E; try (vm_compute in E; discriminate).
  exists c1, c2, c3. split; [reflexivity|].
  vm_compute in E. injection E as <- <- <-. repeat split.
Qed.

(** C4 at the formation and the object 150 km above it: the pair of [lead]
    and [high] pushes nothing, and no returned conjunction joins them. *)
Lemma altitude_gate_excludes_witness :
  pair_body_ex [lead; high] 0 [] 1 = Ok [] /\
  exists out,
    detectConjunctions_ex [lead; wing; tail; high] = Ok out /\
    forall c, In c out ->
              ~ (sat1 c = lead /\ sat2 c = high) /\ ~ (sat1 c = high /\ sat2 c = lead).
Proof.
  destruct (altitude_gate_excludes sqrt_approx not_called1 not_called1 not_called2 now)
    as [Hreject Hnever].
  split.
  - apply (Hreject [lead; high] 0%nat 1%nat lead high []); reflexivity.
  - destruct (detectConjunctions_ex [lead; wing; tail; high]) as [out|] eqn:E.
    + exists out. split; [reflexivity|].
      intros c Hin.
      apply (Hnever [lead; wing; tail; high] out lead high E eq_refl c Hin).
    + vm_compute in E. discriminate.
Defined.

(** C5 at the head-on pair: its conjunction is below 1 km and within the
    horizon. *)
Lemma detectConjunctions_threshold_horizon_witness :
  exists c,
    detectConjunctions_ex [east; west] = Ok [c] /\
    (missDistance (closest c) <? Fin 1)%num = true /\
    exists t, timeToClosestApproach (closest c) = Some t /\
              (Fin 0 <=? t)%num = true /\ (t <=? Fin 30)%num = true.
Proof.
  destruct (detectConjunctions_threshold_horizon sqrt_approx not_called1 not_called1 not_called2 now)
    as [Hout _].
  destruct (detectConjunctions_ex [east; west]) as [[|c [|c' rest]]|] eqn:E;
    try (vm_compute in E; discriminate).
  exists c. split; [reflexivity|].
  destruct (Hout [east; west] [c] c E (or_introl eq_refl)) as (_ & Hm & Ht).
  split; assumption.
Defined.

(** C9 (as the code has it) at the head-on pair: an object without SGP4
    record and altitude between the two changes nothing. *)
Lemma untrackable_object_excluded_witness :
  detectConjunctions_ex [east; blank; west] = detectConjunctions_ex [east; west].
Proof.
  destruct (untrackable_object_excluded sqrt_approx not_called1 not_called1 not_called2 now)
    as [Hdrop _].
  apply (Hdrop blank [east] [west]); reflexivity.
Defined.

(** C9 fails as stated: [bare] has no altitude, and the cycle returns its
    conjunction with [lead]. *)
Lemma object_without_altitude_detected :
  altitude bare = None /\
  summaries (detectConjunctions_ex [lead; bare])
  = Some [("LEAD"%string, "BARE"%string, Fin (1 # 2), Some (Fin (0 # 30)))] /\
  exists c, detectConjunctions_ex [lead; bare] = Ok [c] /\ sat2 c = bare.
Proof.
  split; [reflexivity|]. split; [vm_compute; reflexivity|].
  destruct (detectConjunctions_ex [lead; bare]) as [[|c [|c' rest]]|] eqn:E;
    try (vm_compute in E; discriminate).
  exists c. split; [reflexivity|].
  vm_compute in E. injection E as <-. vm_compute. reflexivity.
Qed.



(** C6 at one fragment and three objects: [lead], at the fragment, is
    flagged; [far], 200 km away, and [blank], without position, are not. *)
Lemma identifyAffectedSatellites_spec_witness :
  In {| satellite := lead; impact_riskLevel := ELEVATED; reason := "In debris field path" |}
     (identifyAffectedSatellites_ex [shard] [lead; far; blank]) /\
  (forall r, In r (identifyAffectedSatellites_ex [shard] [lead; far; blank]) ->
             satellite r <> far) /\
  (forall r, In r (identifyAffectedSatellites_ex [shard] [lead; far; blank]) ->
             satellite r <> blank).
Proof.
  destruct (identifyAffectedSatellites_spec sqrt_approx [shard] [lead; far; blank])
    as (_ & _ & Hat & Hfar & Hnone).
  split; [|split].
  - apply (Hat lead shard 0 0 0); try reflexivity; simpl; auto.
  - apply (Hfar far). intros frag sp fp [<- | []] Hsp Hfp.
    injection Hsp as <-. injection Hfp as <-. vm_compute. reflexivity.
  - apply (Hnone blank). reflexivity.
Defined.

(** C7 at a conjunction with a relative velocity of 10 km/s: 150 fragments. *)
Lemma simulateDebrisCascade_count_witness :
  exists debris rnd',
    simulateDebrisCascade_ex 150 cycle fast = Some (Ok (debris, rnd')) /\
    List.length debris = 150%nat.
Proof.
  destruct (@simulateDebrisCascade_count now fast 10
              {| pos_sat1 := {| x := Fin 0; y := Fin 0; z := Fin 0 |};
                 pos_sat2 := {| x := Fin 0; y := Fin (5 # 100); z := Fin 0 |} |}
              eq_refl ltac:(discriminate) eq_refl) as [_ Hrun].
  destruct (Hrun 150%nat cycle (le_n 150)) as (debris & rnd' & Hsim & _ & Hlen).
  exists debris, rnd'. split; [exact Hsim|]. apply Hlen. reflexivity.
Defined.

Lemma cycle_draws (k : nat) : (0 <= draws cycle k < 1)%Q.
Proof.
  pose proof (Nat.mod_upper_bound k 10 ltac:(discriminate)) as H.
  unfold cycle, Qle, Qlt. cbn [draws Qnum Qden]. lia.
Qed.

(** C8 at the same conjunction: the cascade returns 150 fragments; the first
    one starts at the position of the first object and has a size between 0
    and 0.5, as every one does. *)
Lemma simulateDebrisCascade_fragments_witness :
  exists debris rnd' f,
    simulateDebrisCascade_ex 150 cycle fast = Some (Ok (debris, rnd')) /\
    List.length debris = 150%nat /\
    nth_error debris 0 = Some f /\
    frag_position f = Some {| x := Fin 0; y := Fin 0; z := Fin 0 |} /\
    (exists vx sz,
        x (frag_velocity f) = Fin vx /\ (- (15 # 100) * 10 <= vx <= (15 # 100) * 10)%Q /\
        size f = Fin sz /\ (0 <= sz <= 1 # 2)%Q) /\
    forall i, (i < 150)%nat ->
      exists g, nth_error debris i = Some g /\
                frag_position g = Some {| x := Fin 0; y := Fin 0; z := Fin 0 |}.
Proof.
  destruct (@simulateDebrisCascade_fragments now fast 10
              {| pos_sat1 := {| x := Fin 0; y := Fin 0; z := Fin 0 |};
                 pos_sat2 := {| x := Fin 0; y := Fin (5 # 100); z := Fin 0 |} |}
              150%nat cycle eq_refl ltac:(discriminate) eq_refl cycle_draws
              (le_n 150)) as (debris & rnd' & Hsim & Hlen & _ & Hfrag).
  change (Z.to_nat (Qfloor (50 + 10 * 10))) with 150%nat in Hlen.
  rewrite Hlen in Hfrag.
  destruct (Hfrag 0%nat ltac:(lia))
    as (f & Hf & Hpos & _ & _ & vx & vy & vz & sz & Hv & Hs & Hx & _ & _ & Hsz).
  exists debris, rnd', f. split; [exact Hsim|]. split; [exact Hlen|].
  split; [exact Hf|]. split; [exact Hpos|]. split.
  - exists vx, sz. rewrite Hv. repeat split; tauto.
  - intros i Hi. destruct (Hfrag i Hi) as (g & Hg & Hgpos & _).
    exists g. split; assumption.
Defined.

(** * Examples of the further properties *)

Abbreviation scan_ex := (scan sqrt_approx not_called1 not_called1 not_called2 now).
Abbreviation propagateSatellitePosition_ex :=
  (propagateSatellitePosition sqrt_approx not_called1 not_called1 not_called2 now).
Abbreviation findClosestApproach_fallback :=
  (findClosestApproach sqrt_approx cos_series sin_series cube now).

(** X3 at an object without latitude and at the head-on pair. *)
Lemma detectConjunctions_objects_resolvable_witness :
  propagateSatellitePosition_ex lost (Fin 5) = Ok None /\
  exists c,
    detectConjunctions_ex [east; west] = Ok [c] /\
    resolvable (sat1 c) = true /\ resolvable (sat2 c) = true.
Proof.
  destruct (detectConjunctions_objects_resolvable sqrt_approx not_called1 not_called1
              not_called2 now) as [Hnull Hres].
  split.
  - apply (Hnull lost (Fin 5) eq_refl (or_introl eq_refl)).
  - destruct (detectConjunctions_ex [east; west]) as [[|c [|c' rest]]|] eqn:E;
      try (vm_compute in E; discriminate).
    exists c. split; [reflexivity|].
    exact (Hres [east; west] [c] c E (or_introl eq_refl)).
Defined.

(** X4 at the formation with an object that has lost its timestamp, and at a
    single trackable object. *)
Lemma detectConjunctions_exceptions_witness :
  detectConjunctions_ex [lead; stale] = TypeError /\
  detectConjunctions_ex [lead; blank] = Ok [].
Proof.
  split.
  - apply (proj1 (proj2 (detectConjunctions_exceptions sqrt_approx not_called1 not_called1
                           not_called2 now [lead; stale]))
             0%nat 1%nat lead stale (le_n 1) eq_refl eq_refl eq_refl eq_refl).
  - apply (proj2 (proj2 (detectConjunctions_exceptions sqrt_approx not_called1 not_called1
                           not_called2 now [lead; blank]))).
    apply le_n.
Defined.

(** X5 at the head-on pair, 0.05 km apart. *)
Lemma detectConjunctions_risk_levels_witness :
  exists c q,
    detectConjunctions_ex [east; west] = Ok [c] /\
    missDistance (closest c) = Fin q /\ (q < 1)%Q /\ riskLevel c <> MODERATE.
Proof.
  destruct (detectConjunctions_ex [east; west]) as [[|c [|c' rest]]|] eqn:E;
    try (vm_compute in E; discriminate).
  destruct (detectConjunctions_risk_levels sqrt_approx not_called1 not_called1 not_called2 now
              [east; west] [c] c E (or_introl eq_refl)) as (q & Hq & Hlt & Hmod & _).
  exists c, q. repeat split; assumption.
Defined.

(** X8 at two objects adrift at 550 km. *)
Lemma fallback_same_altitude_witness :
  exists ca,
    findClosestApproach_fallback flotsam jetsam = Ok (Some ca) /\
    relativeVelocity ca = Fin 0.
Proof.
  assert (E : exists ca, findClosestApproach_fallback flotsam jetsam = Ok (Some ca))
    by (vm_compute; eexists; reflexivity).
  destruct E as (ca & E).
  exists ca. split; [exact E|].
  apply (proj1 (fallback_same_altitude sqrt_approx cos_series sin_series cube now
                  flotsam jetsam 550 ca eq_refl eq_refl eq_refl eq_refl eq_refl E)).
Defined.

(** X9 at a conjunction without relative velocity and at one without
    positions. *)
Lemma simulateDebrisCascade_edges_witness :
  simulateDebrisCascade_ex 0 cycle (approach NaN None) = Some (Ok ([], cycle)) /\
  simulateDebrisCascade_ex 1 cycle (approach (Fin 10) None) = Some TypeError.
Proof.
  split.
  - apply (proj1 (simulateDebrisCascade_edges now (approach NaN None)) (or_introl eq_refl)).
  - apply (proj2 (simulateDebrisCascade_edges now (approach (Fin 10) None)) 10 eq_refl
             ltac:(discriminate) eq_refl).
Defined.

(** X10 at a conjunction with an infinite relative velocity. *)
Lemma simulateDebrisCascade_unbounded_witness :
  simulateDebrisCascade_ex 1000 cycle
    (approach PInf (Some {| pos_sat1 := origin; pos_sat2 := origin |})) = None.
Proof.
  apply (simulateDebrisCascade_unbounded now
           (approach PInf (Some {| pos_sat1 := origin; pos_sat2 := origin |}))
           {| pos_sat1 := origin; pos_sat2 := origin |} eq_refl eq_refl).
Defined.

(** X11 at the conjunction of 150 fragments. *)
Lemma simulateDebrisCascade_draws_witness :
  exists debris rnd',
    simulateDebrisCascade_ex 150 cycle fast = Some (Ok (debris, rnd')) /\
    drawn rnd' = (drawn cycle + 4 * List.length debris)%nat.
Proof.
  destruct (simulateDebrisCascade_draws now fast 10
              {| pos_sat1 := {| x := Fin 0; y := Fin 0; z := Fin 0 |};
                 pos_sat2 := {| x := Fin 0; y := Fin (5 # 100); z := Fin 0 |} |}
              150%nat cycle eq_refl ltac:(discriminate) eq_refl (le_n 150))
    as (debris & rnd' & Hsim & _ & Hdrawn & _).
  exists debris, rnd'. split; assumption.
Defined.

(** X13 at the same conjunction: of three objects the one at the origin is
    flagged. *)
Lemma impact_of_cascade_witness :
  exists debris rnd',
    simulateDebrisCascade_ex 150 cycle fast = Some (Ok (debris, rnd')) /\
    identifyAffectedSatellites_ex debris [lead; far; blank] = [impact lead].
Proof.
  destruct (impact_of_cascade sqrt_approx now fast 10
              {| pos_sat1 := {| x := Fin 0; y := Fin 0; z := Fin 0 |};
                 pos_sat2 := {| x := Fin 0; y := Fin (5 # 100); z := Fin 0 |} |}
              150%nat cycle [lead; far; blank] eq_refl ltac:(discriminate) eq_refl (le_n 150))
    as (debris & rnd' & Hsim & _ & Himpact).
  exists debris, rnd'. split; [exact Hsim|]. rewrite Himpact. reflexivity.
Defined.

(** X6 at the formation. *)
Lemma detectConjunctions_keeps_soonest_witness :
  exists cs out dropped,
    scan_ex [lead; wing; tail; high] = Ok cs /\
    detectConjunctions_ex [lead; wing; tail; high] = Ok out /\
    Permutation cs (out ++ dropped) /\
    List.length out = Nat.min 5 (List.length cs).
Proof.
  destruct (scan_ex [lead; wing; tail; high]) as [cs|] eqn:E;
    [|vm_compute in E; discriminate].
  destruct (detectConjunctions_keeps_soonest sqrt_approx not_called1 not_called1 not_called2
              now [lead; wing; tail; high] cs E) as (out & dropped & Hout & Hperm & Hlen & _).
  exists cs, out, dropped. repeat split; assumption.
Defined.

(** X7 at an object listed twice. *)
Lemma scan_duplicate_object_witness :
  exists cs c,
    scan_ex [lead; lead] = Ok cs /\ In c cs /\
    sat1 c = lead /\ sat2 c = lead /\
    missDistance (closest c) = Fin 0 /\ riskLevel c = CRITICAL.
Proof.
  destruct (scan_ex [lead; lead]) as [cs|] eqn:E; [|vm_compute in E; discriminate].
  destruct (scan_duplicate_object sqrt_approx not_called1 not_called1 not_called2 now
              [lead; lead] cs 0%nat 1%nat lead E (le_n 1) eq_refl eq_refl)
    as (c & Hc).
  - exists 0%nat. eexists. split; [apply Nat.le_0_l|].
    split; [vm_compute; reflexivity|]. do 3 eexists. reflexivity.
  - exists cs, c. split; [reflexivity | exact Hc].
Defined.

(** X12 at the head-on pair. *)
Lemma simulateDebrisCascade_detected_no_throw_witness :
  exists c ps,
    detectConjunctions_ex [east; west] = Ok [c] /\
    positions (closest c) = Some ps /\
    simulateDebrisCascade_ex 10 cycle c <> Some TypeError.
Proof.
  destruct (detectConjunctions_ex [east; west]) as [[|c [|c' rest]]|] eqn:E;
    try (vm_compute in E; discriminate).
  destruct (simulateDebrisCascade_detected_no_throw sqrt_approx not_called1 not_called1
              not_called2 now [east; west] [c] c E (or_introl eq_refl))
    as ((ps & Hps) & Hno).
  exists c, ps. split; [reflexivity|]. split; [exact Hps | apply Hno].
Defined.

Abbreviation parseTLEData_ex :=
  (parseTLEData now twoline2satrec_sample gstime_sample eciToGeodetic_sample trim_sample).
Abbreviation generateSyntheticDebris_ex := (generateSyntheticDebris now toString_sample).
Abbreviation generateDemoSatellites_ex :=
  (generateDemoSatellites sin_series now toString_sample).
Abbreviation detectConjunctions_fallback :=
  (detectConjunctions sqrt_approx cos_series sin_series cube now).
Abbreviation formatCountdown_ex := (formatCountdown toString_sample).

(** X15 at a text of ten lines: of its three objects the one whose record
    propagates to a position off the plane [x = 0] is kept. *)
Lemma parseTLEData_objects_witness :
  map (fun o => name (object o)) (parseTLEData_ex catalog_text) = ["EAST"%string] /\
  forall o, In o (parseTLEData_ex catalog_text) ->
            trackable (object o) = true /\ undated (object o) = false.
Proof.
  split; [vm_compute; reflexivity|].
  intros o Hin.
  destruct (proj1 (parseTLEData_objects now twoline2satrec_sample gstime_sample
                     eciToGeodetic_sample trim_sample catalog_text) o Hin)
    as (rec & p & _ & _ & _ & _ & _ & Htr & Hund).
  split; assumption.
Defined.

(** X16 at twenty objects. *)
Lemma generateSyntheticDebris_objects_witness :
  exists debris rnd',
    generateSyntheticDebris_ex 20 cycle = (debris, rnd') /\
    List.length debris = 20%nat /\ drawn rnd' = (drawn cycle + 3 * 20)%nat.
Proof.
  destruct (generateSyntheticDebris_objects now toString_sample 20 cycle cycle_draws
              ltac:(apply Z.leb_le; reflexivity))
    as (debris & rnd' & Hrun & Hlen & _ & Hdrawn & _).
  exists debris, rnd'. repeat split; assumption.
Defined.

(** X17 at the parsed text followed by three synthetic objects. *)
Lemma generated_catalog_safe_witness :
  exists out,
    detectConjunctions_fallback
      (map object (parseTLEData_ex catalog_text)
       ++ map object (fst (generateSyntheticDebris_ex 3 cycle)))
    = Ok out.
Proof.
  refine (proj1 (generated_catalog_safe sqrt_approx cos_series sin_series cube now
                   twoline2satrec_sample gstime_sample eciToGeodetic_sample trim_sample
                   toString_sample
                   (map object (parseTLEData_ex catalog_text)
                    ++ map object (fst (generateSyntheticDebris_ex 3 cycle))) _)).
  intros sat Hin. apply in_app_or in Hin. destruct Hin as [H | H].
  - left. exists catalog_text. exact H.
  - right. left. exists 3%nat, cycle. exact H.
Defined.

(** X18 on the sample platform: the shells of the demo catalog, and the pair
    of the station with the first object of the next shell, which the gate
    rejects. *)
Lemma generateDemoSatellites_shells_witness :
  map altitude (map object generateDemoSatellites_ex)
  = Some (Fin 408) :: repeat (Some (Fin 550)) 50 ++ repeat (Some (Fin 20180)) 12 /\
  pair_body sqrt_approx cos_series sin_series cube now
    (map object generateDemoSatellites_ex) 0 [] 1 = Ok [].
Proof.
  destruct (generateDemoSatellites_shells sqrt_approx cos_series sin_series cube now
              toString_sample) as (Haltitudes & _ & _ & _ & _ & Hrow).
  split; [exact Haltitudes|].
  apply Hrow. split; [apply le_n | repeat constructor].
Defined.

(** X19 at twelve and a half minutes. *)
Lemma formatCountdown_spec_witness :
  formatCountdown_ex (Fin (25 # 2)) = "T-12:30"%string.
Proof.
  rewrite (proj1 (formatCountdown_spec toString_sample (25 # 2)) eq_refl).
  reflexivity.
Defined.

(** X20 at the head-on pair. *)
Lemma formatCountdown_detected_witness :
  exists c k,
    detectConjunctions_ex [east; west] = Ok [c] /\ (k <= 30)%nat /\
    formatCountdown_ex (ToNumber_undefined (timeToClosestApproach (closest c)))
    = ("T-" ++ String_padStart (decimal (Z.of_nat k)) 2 "0" ++ ":00")%string.
Proof.
  destruct (detectConjunctions_ex [east; west]) as [[|c [|c' rest]]|] eqn:E;
    try (vm_compute in E; discriminate).
  destruct (formatCountdown_detected sqrt_approx not_called1 not_called1 not_called2 now
              toString_sample [east; west] [c] c E (or_introl eq_refl)) as (k & Hk & Hfmt).
  exists c, k. split; [reflexivity|]. split; assumption.
Defined.

Lemma sqrt_approx_nonneg (v : Q) : (0 <= sqrt_approx v)%Q.
Proof.
  unfold sqrt_approx. rewrite Qred_correct. unfold Qle. cbn [Qnum Qden].
  pose proof (Z.sqrt_nonneg (Qnum v * Z.pos (Qden v))). lia.
Qed.

(** X21 at the head-on pair. *)
Lemma missDistance_value_detected_witness :
  exists c q,
    detectConjunctions_ex [east; west] = Ok [c] /\
    missDistance (closest c) = Fin q /\
    missDistance_value toString_sample toFixed_sample c
    = (decimal (Qfloor (q * 1000 + (1 # 2))) ++ " m")%string.
Proof.
  destruct (detectConjunctions_ex [east; west]) as [[|c [|c' rest]]|] eqn:E;
    try (vm_compute in E; discriminate).
  destruct (missDistance_value_detected sqrt_approx not_called1 not_called1 not_called2 now
              toString_sample toFixed_sample [east; west] [c] c sqrt_approx_nonneg E
              (or_introl eq_refl)) as (q & Hq & _ & Htext).
  exists c, q. split; [reflexivity|]. split; assumption.
Defined.
